(** * ViewerPage: edit-state reconciliation, search and assembly

    A shallow embedding of the document viewer of the docgen front end
    (the [ViewerPage] component, second half of
    [frontend/src/pages/UploadPage.js]): the document normaliser, the
    registry of editable handles ([pageContentRefs]), the per-region
    edited flags ([localEditedRef]), the save / fetch / regenerate
    handlers, the search scan and the preview / download assembly.

    Strings are sequences of 8-bit code units, read as the Latin-1 range
    of JavaScript's UTF-16 code units.  The DOM store holds, for each
    element, what its [innerHTML] getter returns; an assignment to
    [innerHTML] stores what the browser reads back for the assigned
    text ([reserialise]), which the theorems leave arbitrary. *)

From Stdlib Require Import Ascii.
From stdpp Require Import gmap strings list pretty.

Open Scope string_scope.

(** ** JavaScript values and built-ins *)

Module JS.

(** The values a JSON payload field holds in this program: absent
    ([undefined]), [null], or a string. *)
Inductive jsval : Type :=
  | JUndefined
  | JNull
  | JStr (s : string).

#[global] Instance jsval_eq_dec : EqDecision jsval.
Proof. solve_decision. Defined.

(** Truthiness: [undefined], [null] and the empty string are falsy. *)
Definition truthy (v : jsval) : bool :=
  match v with
  | JStr (String _ _) => true
  | _ => false
  end.

(** [v || ""] for a string-valued field. *)
Definition or_empty (v : jsval) : string :=
  match v with
  | JStr s => s
  | _ => ""
  end.

(** [`${v}`]: the text a template literal inserts for [v]. *)
Definition template (v : jsval) : string :=
  match v with
  | JUndefined => "undefined"
  | JNull => "null"
  | JStr s => s
  end.

(** [String.prototype.toLowerCase] on Latin-1 code units: A-Z and
    U+00C0..U+00DE (but the multiplication sign U+00D7) move up by 32. *)
Definition lower_char (c : ascii) : ascii :=
  let n := N_of_ascii c in
  if ((65 <=? n) && (n <=? 90) || (192 <=? n) && (n <=? 222) && negb (n =? 215))%N
  then ascii_of_N (n + 32)
  else c.

Fixpoint toLowerCase (s : string) : string :=
  match s with
  | EmptyString => EmptyString
  | String c r => String (lower_char c) (toLowerCase r)
  end.

(** [s.startsWith(q)] and [s.includes(q)]. *)
Fixpoint startsWith (s q : string) : bool :=
  match q, s with
  | EmptyString, _ => true
  | String b q', String a s' => bool_decide (a = b) && startsWith s' q'
  | String _ _, EmptyString => false
  end.

Fixpoint includes (s q : string) : bool :=
  startsWith s q ||
  match s with
  | EmptyString => false
  | String _ s' => includes s' q
  end.

(** The double quote and the characters [JSON.stringify] escapes. *)
Definition dquote : string := String "034"%char EmptyString.

Definition hex_digit (n : N) : ascii :=
  if (n <? 10)%N then ascii_of_N (48 + n) else ascii_of_N (87 + n).

Definition json_escape_char (c : ascii) : string :=
  let n := N_of_ascii c in
  if (n =? 34)%N then "\" +:+ dquote
  else if (n =? 92)%N then "\\"
  else if (n =? 8)%N then "\b"
  else if (n =? 12)%N then "\f"
  else if (n =? 10)%N then "\n"
  else if (n =? 13)%N then "\r"
  else if (n =? 9)%N then "\t"
  else if (n <? 32)%N then
    "\u00" +:+ String (hex_digit (n / 16)) (String (hex_digit (n mod 16)) EmptyString)
  else String c EmptyString.

Fixpoint json_escape (s : string) : string :=
  match s with
  | EmptyString => EmptyString
  | String c r => json_escape_char c +:+ json_escape r
  end.

(** [JSON.stringify(v)]: [undefined] for [undefined] (here [None]),
    the text [null] for [null], the quoted and escaped text of a string. *)
Definition JSON_stringify (v : jsval) : option string :=
  match v with
  | JUndefined => None
  | JNull => Some "null"
  | JStr s => Some (dquote +:+ json_escape s +:+ dquote)
  end.

(** [s.trim() === ""]: every code unit of [s] is white space. *)
Definition is_space (c : ascii) : bool :=
  let n := N_of_ascii c in
  ((9 <=? n) && (n <=? 13) || (n =? 32) || (n =? 160))%N.

Fixpoint trim_is_empty (s : string) : bool :=
  match s with
  | EmptyString => true
  | String c r => is_space c && trim_is_empty r
  end.

(** [xs.join("")] for an array of strings. *)
Fixpoint join (xs : list string) : string :=
  match xs with
  | [] => EmptyString
  | x :: r => x +:+ join r
  end.

End JS.

Import JS.

(** ** Documents *)

(** A page or a section as the server sends it.  [rtype] is the field
    [type], [layout] the field [layout]. *)
Record Region : Type := mkRegion {
  name : jsval;
  content : jsval;
  rtype : jsval;
  layout : jsval;
}.

#[global] Instance Region_eq_dec : EqDecision Region.
Proof. solve_decision. Defined.

(** An array slot is an object or [null]/[undefined] ([None]).  Sparse
    arrays do not occur in JSON payloads and are not modelled. *)
Definition slot : Type := option Region.

(** A document payload; [pages] and [sections] may be absent. *)
Record Doc : Type := mkDoc {
  id : jsval;
  title : jsval;
  raw_text : jsval;
  pages : option (list slot);
  sections : option (list slot);
}.

#[global] Instance Doc_eq_dec : EqDecision Doc.
Proof. solve_decision. Defined.

(** [arr || []]. *)
Definition or_nil {A} (arr : option (list A)) : list A := default [] arr.

Inductive Mode : Type := MPage | MSection.

#[global] Instance Mode_eq_dec : EqDecision Mode.
Proof. solve_decision. Defined.

Definition mode_str (m : Mode) : string :=
  match m with
  | MPage => "page"
  | MSection => "section"
  end.

(** The registry key [`${mode}${index}`]. *)
Definition refKey (m : Mode) (index : nat) : string := mode_str m +:+ pretty index.

(** [normalizeShape(obj, mode)] *)
Definition normalizeShape (obj : slot) (mode : Mode) : slot :=
  match obj with
  | None => None
  | Some o =>
      let o1 :=
        if negb (truthy (rtype o)) && bool_decide (mode = MSection)
        then mkRegion (name o) (content o) (JStr "text") (layout o)
        else o in
      let o2 :=
        if negb (truthy (layout o1)) && bool_decide (mode = MPage)
        then mkRegion (name o1) (content o1) (rtype o1) (JStr "text")
        else o1 in
      Some o2
  end.

(** [normalizeDocument(doc)] *)
Definition normalizeDocument (doc : option Doc) : Doc :=
  match doc with
  | None => mkDoc JUndefined JUndefined JUndefined (Some []) (Some [])
  | Some d =>
      mkDoc (id d) (title d) (raw_text d)
        (Some ((λ p, normalizeShape p MPage) <$> or_nil (pages d)))
        (Some ((λ s, normalizeShape s MSection) <$> or_nil (sections d)))
  end.

(** ** Component state *)

(** A DOM element is known by its identity; its markup lives in the
    DOM store [innerHTML], shared by every holder of the element. *)
Definition elem : Type := nat.

(** The browser the page runs in.  Assigning [el.innerHTML = text]
    parses [text] as a fragment in the context of [el] and replaces the
    element's children; reading [el.innerHTML] serialises the children.
    [reserialise el text] is what the getter returns after the setter
    was given [text]: "<P>x</P>" reads back as "<p>x</p>", a bare "&" as
    "&amp;", a no-break space as "&nbsp;".  The HTML parser is no part
    of the repository, so the component is verified for every such
    function. *)
Class Browser : Type := {
  reserialise : elem → string → string;
}.

Inductive Severity : Type := SevError | SevSuccess | SevInfo.

Record Snack : Type := mkSnack {
  snack_open : bool;
  message : string;
  severity : Severity;
}.

(** The state of one mounted [ViewerPage]: the React state cells the
    handlers use, the two ref objects, the DOM store and the callbacks
    queued by [setTimeout]. *)
Record State : Type := mkState {
  documentData : option Doc;
  search : string;
  loading : bool;
  snack : Snack;
  fontFamily : string;
  fontSize : nat;
  viewerScrollRef : option elem;
  pageContentRefs : gmap string elem;
  localEditedRef : gmap string bool;
  innerHTML : gmap elem string;
  timers : list Doc;
}.

Definition setDocumentData (v : option Doc) (st : State) : State :=
  mkState v (search st) (loading st) (snack st) (fontFamily st) (fontSize st)
    (viewerScrollRef st) (pageContentRefs st) (localEditedRef st) (innerHTML st) (timers st).

Definition setLoading (v : bool) (st : State) : State :=
  mkState (documentData st) (search st) v (snack st) (fontFamily st) (fontSize st)
    (viewerScrollRef st) (pageContentRefs st) (localEditedRef st) (innerHTML st) (timers st).

Definition setSnack (v : Snack) (st : State) : State :=
  mkState (documentData st) (search st) (loading st) v (fontFamily st) (fontSize st)
    (viewerScrollRef st) (pageContentRefs st) (localEditedRef st) (innerHTML st) (timers st).

Definition set_pageContentRefs (v : gmap string elem) (st : State) : State :=
  mkState (documentData st) (search st) (loading st) (snack st) (fontFamily st) (fontSize st)
    (viewerScrollRef st) v (localEditedRef st) (innerHTML st) (timers st).

Definition set_localEditedRef (v : gmap string bool) (st : State) : State :=
  mkState (documentData st) (search st) (loading st) (snack st) (fontFamily st) (fontSize st)
    (viewerScrollRef st) (pageContentRefs st) v (innerHTML st) (timers st).

Definition set_innerHTML (v : gmap elem string) (st : State) : State :=
  mkState (documentData st) (search st) (loading st) (snack st) (fontFamily st) (fontSize st)
    (viewerScrollRef st) (pageContentRefs st) (localEditedRef st) v (timers st).

(** [setTimeout(() => populateEditorsFromDocument(doc), 50)] *)
Definition setTimeout_populate (doc : Doc) (st : State) : State :=
  mkState (documentData st) (search st) (loading st) (snack st) (fontFamily st) (fontSize st)
    (viewerScrollRef st) (pageContentRefs st) (localEditedRef st) (innerHTML st)
    (timers st ++ [doc]).

Definition set_timers (v : list Doc) (st : State) : State :=
  mkState (documentData st) (search st) (loading st) (snack st) (fontFamily st) (fontSize st)
    (viewerScrollRef st) (pageContentRefs st) (localEditedRef st) (innerHTML st) v.

(** [el.innerHTML] read: the serialisation of the element's children,
    which is what the store [innerHTML] holds for each element (empty
    for an element without children). *)
Definition html (st : State) (el : elem) : string := default "" (innerHTML st !! el).

(** The children of [el] are replaced, and now serialise to [markup]. *)
Definition set_markup (el : elem) (markup : string) (st : State) : State :=
  set_innerHTML (<[el := markup]> (innerHTML st)) st.

Section Viewer.
Context `{browser : Browser}.

(** [el.innerHTML = text]: the browser parses [text]; the element then
    reads back as [reserialise el text], not as [text]. *)
Definition write_html (el : elem) (text : string) (st : State) : State :=
  set_markup el (reserialise el text) st.

(** [localEditedRef.current[key]] read as a condition. *)
Definition isDirty (st : State) (key : string) : bool :=
  default false (localEditedRef st !! key).

(** The live markup of the region registered under [key], if any. *)
Definition live (st : State) (key : string) : option string :=
  html st <$> pageContentRefs st !! key.

(** How a callback ends: normally, or by an uncaught [TypeError]. *)
Inductive Completion : Type := Normal | Thrown.

(** [arr.forEach((x, idx) => f(x, idx))], stopping at the first throw. *)
Fixpoint forEach_from {A} (f : State → nat → A → State * Completion)
    (st : State) (idx : nat) (arr : list A) : State * Completion :=
  match arr with
  | [] => (st, Normal)
  | x :: rest =>
      match f st idx x with
      | (st', Normal) => forEach_from f st' (S idx) rest
      | (st', Thrown) => (st', Thrown)
      end
  end.

Definition forEach {A} (f : State → nat → A → State * Completion)
    (st : State) (arr : list A) : State * Completion :=
  forEach_from f st 0 arr.

(** ** Helpers of the component *)

(** One iteration of the loops of [resetRefs]. *)
Definition reset_flag (mode : Mode) (st : State) (idx : nat) (_ : slot)
    : State * Completion :=
  (set_localEditedRef (<[refKey mode idx := false]> (localEditedRef st)) st, Normal).

(** [resetRefs(doc)] *)
Definition resetRefs (doc : option Doc) (st : State) : State :=
  let st0 := set_pageContentRefs ∅ (set_localEditedRef ∅ st) in
  let st1 := (forEach (reset_flag MPage) st0 (or_nil (doc ≫= pages))).1 in
  (forEach (reset_flag MSection) st1 (or_nil (doc ≫= sections))).1.

(** One iteration of the loops of [populateEditorsFromDocument]:
    reading [pg.content] of a [null] slot throws. *)
Definition populate_region (mode : Mode) (st : State) (idx : nat) (pg : slot)
    : State * Completion :=
  match pageContentRefs st !! refKey mode idx with
  | None => (st, Normal)
  | Some el =>
      if isDirty st (refKey mode idx) then (st, Normal)
      else match pg with
           | None => (st, Thrown)
           | Some r => (write_html el (or_empty (content r)) st, Normal)
           end
  end.

(** [populateEditorsFromDocument(doc)] *)
Definition populateEditorsFromDocument (doc : option Doc) (st : State)
    : State * Completion :=
  match doc with
  | None => (st, Normal)
  | Some d =>
      match forEach (populate_region MPage) st (or_nil (pages d)) with
      | (st1, Normal) => forEach (populate_region MSection) st1 (or_nil (sections d))
      | (st1, Thrown) => (st1, Thrown)
      end
  end.

(** The oldest queued timer fires. *)
Definition runTimer (st : State) : State :=
  match timers st with
  | [] => st
  | doc :: rest => (populateEditorsFromDocument (Some doc) (set_timers rest st)).1
  end.

(** Repopulation calls in sequence, each from its own document. *)
Definition repopulate (docs : list (option Doc)) (st : State) : State :=
  foldl (λ s d, (populateEditorsFromDocument d s).1) st docs.

(** ** The editable region: ref callback and input handler *)

(** The [ref] callback of [renderEditable(item, mode, idx)], as React
    invokes it with the mounted element ([None] for [null]). *)
Definition refCallback (mode : Mode) (idx : nat) (item : slot) (el : option elem)
    (st : State) : State * Completion :=
  match el with
  | None => (st, Normal)
  | Some e =>
      let key := refKey mode idx in
      let st1 := set_pageContentRefs (<[key := e]> (pageContentRefs st)) st in
      if negb (isDirty st1 key) && trim_is_empty (html st1 e) then
        match item with
        | None => (st1, Thrown)
        | Some r => (write_html e (or_empty (content r)) st1, Normal)
        end
      else (st1, Normal)
  end.

(** [{ ...obj, content: html }] *)
Definition spread_with_content (obj : slot) (markup : string) : Region :=
  match obj with
  | Some r => mkRegion (name r) (JStr markup) (rtype r) (layout r)
  | None => mkRegion JUndefined (JStr markup) JUndefined JUndefined
  end.

(** [arr[idx] = v] on a copy of [arr]: in range it replaces the slot,
    past the end the array grows up to [idx]. *)
Definition array_set (arr : list slot) (idx : nat) (v : Region) : list slot :=
  if decide (idx < length arr) then <[idx := Some v]> arr
  else arr ++ replicate (idx - length arr) None ++ [Some v].

(** The updater passed to [setDocumentData] by [onInput]. *)
Definition onInput_update (mode : Mode) (idx : nat) (markup : string)
    (prev : option Doc) : option Doc :=
  match prev with
  | None => None
  | Some d =>
      match mode with
      | MPage =>
          let arr := or_nil (pages d) in
          Some (mkDoc (id d) (title d) (raw_text d)
                  (Some (array_set arr idx (spread_with_content (mjoin (arr !! idx)) markup)))
                  (sections d))
      | MSection =>
          let arr := or_nil (sections d) in
          Some (mkDoc (id d) (title d) (raw_text d) (pages d)
                  (Some (array_set arr idx (spread_with_content (mjoin (arr !! idx)) markup))))
      end
  end.

(** [onInput] of the region [(mode, idx)]. *)
Definition onInput (mode : Mode) (idx : nat) (st : State) : State :=
  let key := refKey mode idx in
  match pageContentRefs st !! key with
  | None => st
  | Some node =>
      let st1 := set_localEditedRef (<[key := true]> (localEditedRef st)) st in
      setDocumentData (onInput_update mode idx (html st1 node) (documentData st1)) st1
  end.

(** The user types in the region: the browser rewrites the element's
    children, which now serialise to [markup], then delivers the input
    event. *)
Definition userEdit (mode : Mode) (idx : nat) (markup : string) (st : State) : State :=
  match pageContentRefs st !! refKey mode idx with
  | None => st
  | Some node => onInput mode idx (set_markup node markup st)
  end.

(** ** Calls to the server *)

(** What a request comes back with: the [document] field of the
    response body, or a rejection with the server's [detail]. *)
Inductive Response : Type :=
  | Resolved (document : option Doc)
  | Rejected (detail : jsval).

Record SaveRequest : Type := mkSaveRequest {
  req_mode : Mode;
  req_name : jsval;
  req_content : string;
}.

(** The synchronous part of [handleSave(mode, index)], up to the
    [await]: it returns early, throws on a document without the array,
    fails inside [try] on a [null] item, or sends the request. *)
Inductive SaveStart : Type :=
  | SaveReturned
  | SaveTypeError
  | SaveCaught
  | SaveSent (req : SaveRequest) (item : Region).

Definition region_array (mode : Mode) (d : Doc) : option (list slot) :=
  match mode with
  | MPage => pages d
  | MSection => sections d
  end.

Definition handleSave_start (mode : Mode) (index : nat) (st : State) : SaveStart :=
  match documentData st with
  | None => SaveReturned
  | Some d =>
      match region_array mode d with
      | None => SaveTypeError
      | Some arr =>
          match pageContentRefs st !! refKey mode index with
          | None => SaveReturned
          | Some el =>
              match mjoin (arr !! index) with
              | None => SaveCaught
              | Some item => SaveSent (mkSaveRequest mode (name item) (html st el)) item
              end
          end
      end
  end.

Definition save_failed (mode : Mode) : Snack :=
  mkSnack true ("Failed to save " +:+ mode_str mode) SevError.

Definition save_succeeded (mode : Mode) (item : Region) : Snack :=
  mkSnack true
    (mode_str mode +:+ " " +:+ dquote +:+ template (name item) +:+ dquote +:+ " saved")
    SevSuccess.

(** The rest of [handleSave], run when the request settles, on the
    state of that moment. *)
Definition handleSave_settle (mode : Mode) (index : nat) (item : Region)
    (res : Response) (st : State) : State :=
  match res with
  | Resolved document =>
      let updated := normalizeDocument document in
      let st1 := setDocumentData (Some updated) st in
      let st2 := setSnack (save_succeeded mode item) st1 in
      let st3 :=
        set_localEditedRef (<[refKey mode index := true]> (localEditedRef st2)) st2 in
      setTimeout_populate updated st3
  | Rejected _ => setSnack (save_failed mode) st
  end.

(** [handleSave(mode, index)] against a server answering [server]. *)
Definition handleSave (mode : Mode) (index : nat) (server : SaveRequest → Response)
    (st : State) : State :=
  match handleSave_start mode index st with
  | SaveReturned | SaveTypeError => st
  | SaveCaught => setSnack (save_failed mode) st
  | SaveSent req item => handleSave_settle mode index item (server req) st
  end.

(** [fetchDocument()]: before the [await], and when the request settles. *)
Definition fetchDocument_start (st : State) : State := setLoading true st.

Definition fetchDocument_settle (res : Response) (st : State) : State :=
  match res with
  | Resolved doc =>
      let normalizedDoc := normalizeDocument doc in
      let st1 := setDocumentData (Some normalizedDoc) st in
      let st2 := resetRefs (Some normalizedDoc) st1 in
      setLoading false (setTimeout_populate normalizedDoc st2)
  | Rejected detail =>
      let msg := if truthy detail then template detail else "Failed to load document" in
      setLoading false (setSnack (mkSnack true msg SevError) st)
  end.

(** [handleRegenerateDocument()]: the request body, and the two halves. *)
Definition regenerate_body (st : State) : string :=
  or_empty (default JUndefined (raw_text <$> documentData st)).

Definition handleRegenerateDocument_start (st : State) : State := setLoading true st.

Definition handleRegenerateDocument_settle (res : Response) (st : State) : State :=
  match res with
  | Resolved document =>
      let updated := normalizeDocument document in
      let st1 := setDocumentData (Some updated) st in
      let st2 := setSnack (mkSnack true "Document regenerated" SevSuccess) st1 in
      let st3 := resetRefs (Some updated) st2 in
      setLoading false (setTimeout_populate updated st3)
  | Rejected _ =>
      setLoading false
        (setSnack (mkSnack true "Failed to regenerate document" SevError) st)
  end.

(** ** Search *)

(** [allItems]: the pages, then the sections, each copied by
    [{ ...p, _mode }] (a [null] slot spreads to an object without
    [content]). *)
Definition item_content (it : slot) : jsval :=
  match it with
  | Some r => content r
  | None => JUndefined
  end.

Definition allItems (d : Doc) : list slot := or_nil (pages d) ++ or_nil (sections d).

(** The predicate given to [findIndex]:
    [JSON.stringify(i.content).toLowerCase().includes(lower)];
    [None] when [JSON.stringify] yields [undefined] and the call of
    [toLowerCase] on it throws. *)
Definition item_matches (lower : string) (it : slot) : option bool :=
  match JSON_stringify (item_content it) with
  | None => None
  | Some text => Some (includes (toLowerCase text) lower)
  end.

Inductive FindResult : Type :=
  | FoundAt (idx : nat)
  | NotPresent
  | FindThrown.

(** [arr.findIndex(p)] from position [idx] on. *)
Fixpoint findIndex_from {A} (p : A → option bool) (idx : nat) (arr : list A)
    : FindResult :=
  match arr with
  | [] => NotPresent
  | x :: rest =>
      match p x with
      | None => FindThrown
      | Some true => FoundAt idx
      | Some false => findIndex_from p (S idx) rest
      end
  end.

Definition findIndex {A} (p : A → option bool) (arr : list A) : FindResult :=
  findIndex_from p 0 arr.

(** What [handleSearch] does: nothing (empty query or no document), an
    uncaught [TypeError], the "Not found" notice, or the region it
    locates: its position in [allItems], its registry key, and the
    element that is scrolled to and re-marked, when the key has a handle
    and the scroll container is mounted.  The marking itself works on
    the DOM and is not part of this model. *)
Inductive SearchOutcome : Type :=
  | SearchIgnored
  | SearchThrown
  | SearchNotFound (st' : State)
  | SearchFound (idx : nat) (key : string) (target : option elem).

Definition not_found : Snack := mkSnack true "Not found" SevInfo.

Definition handleSearch (st : State) : SearchOutcome :=
  match search st, documentData st with
  | EmptyString, _ => SearchIgnored
  | _, None => SearchIgnored
  | String _ _, Some d =>
      let lower := toLowerCase (search st) in
      match findIndex (item_matches lower) (allItems d) with
      | FindThrown => SearchThrown
      | NotPresent => SearchNotFound (setSnack not_found st)
      | FoundAt idx =>
          let npages := length (or_nil (pages d)) in
          let key :=
            if decide (idx < npages) then refKey MPage idx
            else refKey MSection (idx - npages) in
          let target :=
            match pageContentRefs st !! key, viewerScrollRef st with
            | Some el, Some _ => Some el
            | _, _ => None
            end in
          SearchFound idx key target
      end
  end.

(** ** Preview and download assembly *)

(** [arr.map((_, idx) => { const el = refs[`${mode}${idx}`];
    return el ? el.innerHTML : ""; })] *)
Definition region_html (mode : Mode) (st : State) (arr : list slot) : list string :=
  imap (λ idx _,
          match pageContentRefs st !! refKey mode idx with
          | Some el => html st el
          | None => ""
          end) arr.

Definition doc_pages (st : State) : list slot := or_nil (documentData st ≫= pages).
Definition doc_sections (st : State) : list slot := or_nil (documentData st ≫= sections).

(** The fixed template around the body. *)
Definition styled (family : string) (size : nat) (body : string) : string :=
"
<html>
<head>
  <meta charset=" +:+ dquote +:+ "utf-8" +:+ dquote +:+ "/>
  <style>
    body { font-family: " +:+ family +:+ ", sans-serif; font-size: " +:+ pretty size +:+ "px; line-height: 1.5; margin: 40px; }
    h1, h2, h3, h4, h5, h6 { font-weight: bold; margin-top: 20px; margin-bottom: 10px; }
    p { margin: 10px 0; }
    ul, ol { margin: 10px 20px; }
    table { border-collapse: collapse; width: 100%; margin: 15px 0; }
    th, td { border: 1px solid #333; padding: 6px; text-align: left; }
  </style>
</head>
<body>
  " +:+ body +:+ "
</body>
</html>
".

(** [handleOpenPreview]: [pageHtml], [sectionHtml], [joined] and the
    markup put in the preview blob. *)
Definition preview_pageHtml (st : State) : list string :=
  region_html MPage st (doc_pages st).

Definition preview_sectionHtml (st : State) : list string :=
  region_html MSection st (doc_sections st).

Definition preview_joined (st : State) : string :=
  join (preview_pageHtml st ++ preview_sectionHtml st).

Definition handleOpenPreview (st : State) : State * string :=
  (setLoading false (setLoading true st),
   styled (fontFamily st) (fontSize st) (preview_joined st)).

(** [handleDownload]: the same assembly, sent to the export service. *)
Definition download_pageHtml (st : State) : list string :=
  region_html MPage st (doc_pages st).

Definition download_sectionHtml (st : State) : list string :=
  region_html MSection st (doc_sections st).

Definition download_joined (st : State) : string :=
  join (download_pageHtml st ++ download_sectionHtml st).

Record ExportRequest : Type := mkExportRequest {
  export_title : string;
  htmlContent : string;
}.

Definition handleDownload_start (route_id : string) (st : State) : State * ExportRequest :=
  let doc_title := default JUndefined (title <$> documentData st) in
  (setLoading true st,
   mkExportRequest
     (if truthy doc_title then template doc_title else "document_" +:+ route_id)
     (styled (fontFamily st) (fontSize st) (download_joined st))).

Definition handleDownload_settle (req : ExportRequest) (ok : bool) (st : State) : State :=
  let filename := export_title req +:+ ".docx" in
  setLoading false
    (setSnack
       (if ok then mkSnack true ("Downloaded " +:+ filename) SevSuccess
        else mkSnack true "Export failed" SevError) st).

(** ** Whole-document regeneration as the user drives it *)

(** The [disabled] prop of two buttons of the page: Preview carries
    [disabled={loading}], Regenerate Entire Document carries none. *)
Definition previewButton_disabled (st : State) : bool := loading st.
Definition regenerateButton_disabled (st : State) : bool := false.

(** The page together with the whole-document regenerations that were
    sent and have not settled yet (their request bodies). *)
Record Session : Type := mkSession {
  page : State;
  pending_regenerations : list string;
}.

Inductive Event : Type :=
  | ClickRegenerate
  | SettleRegenerate (res : Response).

(** A click reaches the handler unless the button is disabled; a
    settlement resumes the oldest pending request. *)
Definition dispatch (s : Session) (e : Event) : Session :=
  match e with
  | ClickRegenerate =>
      if regenerateButton_disabled (page s) then s
      else mkSession (handleRegenerateDocument_start (page s))
             (pending_regenerations s ++ [regenerate_body (page s)])
  | SettleRegenerate res =>
      match pending_regenerations s with
      | [] => s
      | _ :: rest => mkSession (handleRegenerateDocument_settle res (page s)) rest
      end
  end.

Definition run (s : Session) (es : list Event) : Session := foldl dispatch s es.

Definition initial (st : State) : Session := mkSession st [].

(** ** Predicates used in the statements *)

(** No two keys of the registry hold the same DOM element (each region
    is rendered as an element of its own). *)
Definition handles_distinct (st : State) : Prop :=
  ∀ k1 k2 el,
    pageContentRefs st !! k1 = Some el → pageContentRefs st !! k2 = Some el → k1 = k2.

(** [st'] differs from [st] at most in the markup of elements that
    [st] registers under a key whose flag is not set. *)
Definition writes_clean_only (st st' : State) : Prop :=
  pageContentRefs st' = pageContentRefs st ∧
  localEditedRef st' = localEditedRef st ∧
  ∀ el, html st' el = html st el ∨
        ∃ k, pageContentRefs st !! k = Some el ∧ isDirty st k = false.

(** A decidable form of "no two keys hold the same element". *)
Definition handles_distinct_b (st : State) : bool :=
  bool_decide (NoDup ((map_to_list (pageContentRefs st)).*2)).

(** Every flag reads as clean. *)
Definition all_clean (st : State) : Prop := ∀ k, isDirty st k = false.

(** A document all of whose array slots hold objects. *)
Definition no_null_slots (d : Doc) : Prop :=
  Forall is_Some (or_nil (pages d)) ∧ Forall is_Some (or_nil (sections d)).

(** One invocation of a region's ref callback by React. *)
Definition Registration : Type := Mode * nat * slot * option elem.

Definition register (st : State) (reg : Registration) : State :=
  let '(mode, idx, item, el) := reg in (refCallback mode idx item el st).1.

Definition register_all (regs : list Registration) (st : State) : State :=
  foldl register st regs.

(** [setSearch(query)] *)
Definition setSearch (query : string) (st : State) : State :=
  mkState (documentData st) query (loading st) (snack st) (fontFamily st) (fontSize st)
    (viewerScrollRef st) (pageContentRefs st) (localEditedRef st) (innerHTML st) (timers st).

(** In the words of the specification: the serialised markup of the
    region contains, ignoring case, the query as a substring. *)
Definition region_matches (query : string) (it : slot) : Prop :=
  ∃ text pre w suf,
    JSON_stringify (item_content it) = Some text ∧
    text = pre +:+ w +:+ suf ∧
    toLowerCase w = toLowerCase query.

(** Every region of the document has a [content] to serialise. *)
Definition all_have_content (d : Doc) : Prop :=
  Forall (λ it, item_content it ≠ JUndefined) (allItems d).

Definition reg_key (reg : Registration) : string :=
  let '(mode, idx, _, _) := reg in refKey mode idx.

Definition reg_elem (reg : Registration) : option elem :=
  let '(_, _, _, el) := reg in el.

(** Whether the ref callback writes the item's content into the element:
    the key is clean, the element is blank, and the item is an object. *)
Definition ref_writes (mode : Mode) (idx : nat) (item : slot) (e : elem) (st : State)
    : bool :=
  negb (isDirty st (refKey mode idx)) && trim_is_empty (html st e)
  && bool_decide (is_Some item).

(** The per-region arrays of the two assemblies, by kind. *)
Definition preview_regionHtml (mode : Mode) (st : State) : list string :=
  match mode with
  | MPage => preview_pageHtml st
  | MSection => preview_sectionHtml st
  end.

Definition download_regionHtml (mode : Mode) (st : State) : list string :=
  match mode with
  | MPage => download_pageHtml st
  | MSection => download_sectionHtml st
  end.

Definition doc_regions (mode : Mode) (st : State) : list slot :=
  match mode with
  | MPage => doc_pages st
  | MSection => doc_sections st
  end.

(** [documentData] is [null] or carries both arrays, as every value
    given to [setDocumentData] does. *)
Definition arrays_present (st : State) : Prop :=
  ∀ d, documentData st = Some d → is_Some (pages d) ∧ is_Some (sections d).

(** React renders the regions of [documentData] and invokes each
    region's ref callback with the element [els mode idx]. *)
Definition render_refs (els : Mode → nat → elem) (st : State) : State :=
  let st1 :=
    (forEach (λ s idx pg, refCallback MPage idx pg (Some (els MPage idx)) s)
       st (doc_pages st)).1 in
  (forEach (λ s idx sec, refCallback MSection idx sec (Some (els MSection idx)) s)
     st1 (doc_sections st1)).1.

End Viewer.

(** ** A sample session

    One page "Intro" and one section "Summary": the page is mounted,
    the document is fetched, React registers the two editable elements
    (0 and 1), the queued repopulation runs, and the user then edits
    the page. *)

(** The browser of the sample session.  All markup of the session is
    in serialised form (lower-case tags, closed elements, no character
    references) but for bare ampersands, and on such markup parsing
    and serialising rewrites the ampersands only: "& " starts no
    character reference, so it is parsed as text and serialised as
    "&amp; ". *)
Fixpoint escape_bare_amp (s : string) : string :=
  match s with
  | EmptyString => EmptyString
  | String c rest =>
      match rest with
      | String " " _ =>
          if bool_decide (c = "&"%char) then "&amp;" +:+ escape_bare_amp rest
          else String c (escape_bare_amp rest)
      | _ => String c (escape_bare_amp rest)
      end
  end.

Definition sample_browser : Browser := {| reserialise := λ _, escape_bare_amp |}.

Section Sample.
#[local] Existing Instance sample_browser.

Definition intro : Region := mkRegion (JStr "Intro") (JStr "<p>Hi</p>") JUndefined JUndefined.
Definition summary : Region := mkRegion (JStr "Summary") (JStr "<p>Alpha</p>") JUndefined JUndefined.

Definition doc1 : Doc :=
  mkDoc (JStr "1") (JStr "Report") (JStr "source text") (Some [Some intro]) (Some [Some summary]).

Definition mounted : State :=
  mkState None "" false (mkSnack false "" SevError) "Calibri" 16 (Some 100) ∅ ∅ ∅ [].

Definition sample_els (mode : Mode) (idx : nat) : elem :=
  match mode with
  | MPage => idx
  | MSection => 1 + idx
  end.

Definition fetched : State :=
  fetchDocument_settle (Resolved (Some doc1)) (fetchDocument_start mounted).

Definition loaded : State := runTimer (render_refs sample_els fetched).

Definition edited : State := userEdit MPage 0 "<p>Hi there</p>" loaded.

(** The server's answer to saving a region: the stored document with
    that region's content replaced. *)
Definition saved_doc : Doc :=
  mkDoc (JStr "1") (JStr "Report") (JStr "source text")
    (Some [Some (mkRegion (JStr "Intro") (JStr "<p>Hi there</p>") JUndefined (JStr "text"))])
    (Some [Some summary]).

Definition after_save : State :=
  runTimer (handleSave MPage 0 (λ _, Resolved (Some saved_doc)) edited).

(** A later fetch of the same document id, answered with other content. *)
Definition doc2 : Doc :=
  mkDoc (JStr "1") (JStr "Report") (JStr "source text")
    (Some [Some (mkRegion (JStr "Intro") (JStr "<p>Rewritten</p>") JUndefined JUndefined)])
    (Some [Some summary]).

Definition refetched : State :=
  runTimer (render_refs sample_els
    (fetchDocument_settle (Resolved (Some doc2)) (fetchDocument_start after_save))).

(** A document whose page holds a bare ampersand, as plain server text
    does. *)
Definition doc_amp : Doc :=
  mkDoc (JStr "1") (JStr "Report") (JStr "source text")
    (Some [Some (mkRegion (JStr "Intro") (JStr "<p>R & D</p>") JUndefined JUndefined)])
    (Some [Some summary]).

End Sample.

(** ** The regeneration dialog

    The three state cells of the dialog and the handlers that use them;
    they stand beside [State], which the handlers above do not share
    with the dialog. *)
Record Dialog : Type := mkDialog {
  openDialog : bool;
  currentItem : option (Region * Mode);
  itemPrompt : string;
}.

(** [{ ...item, _mode: mode }] *)
Definition spread_item (item : slot) : Region :=
  match item with
  | Some r => r
  | None => mkRegion JUndefined JUndefined JUndefined JUndefined
  end.

(** [handleOpenDialog(item, mode)] and [handleCloseDialog()] *)
Definition handleOpenDialog (item : slot) (mode : Mode) (_ : Dialog) : Dialog :=
  mkDialog true (Some (spread_item item, mode)) "".

Definition handleCloseDialog (_ : Dialog) : Dialog := mkDialog false None "".

Record RegenerateRequest : Type := mkRegenerateRequest {
  regen_mode : Mode;
  regen_name : jsval;
  user_instruction : string;
  regen_raw_text : string;
}.

(** [handleRegenerate()] up to the [await]: [None] when there is no
    current item (the handler returns at once). *)
Definition handleRegenerate_start (dlg : Dialog) (st : State)
    : option (State * RegenerateRequest) :=
  match currentItem dlg with
  | None => None
  | Some (item, mode) =>
      Some (setLoading true st,
            mkRegenerateRequest mode (name item) (itemPrompt dlg) (regenerate_body st))
  end.

(** The rest of [handleRegenerate], for the [mode] read before the
    [await]. *)
Definition handleRegenerate_settle (mode : Mode) (res : Response)
    (dlg : Dialog) (st : State) : State * Dialog :=
  match res with
  | Resolved document =>
      let updated := normalizeDocument document in
      let st1 := setDocumentData (Some updated) st in
      let st2 :=
        setSnack (mkSnack true (mode_str mode +:+ " regenerated successfully") SevSuccess)
          st1 in
      let st3 := resetRefs (Some updated) st2 in
      (setLoading false (setTimeout_populate updated st3), handleCloseDialog dlg)
  | Rejected _ =>
      (setLoading false
         (setSnack (mkSnack true ("Failed to regenerate " +:+ mode_str mode) SevError) st),
       dlg)
  end.

(** The keys [resetRefs(doc)] gives a flag: one per slot of each array. *)
Definition is_region_key (doc : option Doc) (k : string) : Prop :=
  ∃ mode idx, k = refKey mode idx ∧ idx < length (or_nil (doc ≫= region_array mode)).

(** A string none of whose code units [JSON.stringify] escapes. *)
Definition json_plain_char (c : ascii) : bool :=
  let n := N_of_ascii c in
  negb (n <? 32)%N && negb (n =? 34)%N && negb (n =? 92)%N.

Fixpoint json_plain (s : string) : bool :=
  match s with
  | EmptyString => true
  | String c r => json_plain_char c && json_plain r
  end.

(** A string without the code unit [c]. *)
Fixpoint lacks (c : ascii) (s : string) : bool :=
  match s with
  | EmptyString => true
  | String a r => negb (bool_decide (a = c)) && lacks c r
  end.

(** ** ConfigurePage: rows, formatting rules and the save guard *)

Module Configure.

(** The values a configuration row holds under its field names. *)
Inductive cfgval : Type :=
  | VStr (s : string)
  | VNum (n : nat)
  | VBool (b : bool)
  | VList (l : list string).

#[global] Instance cfgval_eq_dec : EqDecision cfgval.
Proof. solve_decision. Defined.

(** A row is an object with string keys; [{ ...it, [key]: val }] is an
    insertion. *)
Abbreviation Row := (gmap string cfgval).

(** [it.__localId === localId], for the string ids of this page. *)
Definition has_id (localId : string) (it : Row) : Prop :=
  it !! "__localId" = Some (VStr localId).

#[global] Instance has_id_dec localId it : Decision (has_id localId it).
Proof. unfold has_id. apply _. Defined.

(** The row [addPage] appends; [newId] is the value [makeId("pg")]
    returns at that call. *)
Definition new_page (newId : string) (count : nat) : Row :=
  <["__localId" := VStr newId]>
    (<["name" := VStr ""]>
       (<["sequence" := VNum (count + 1)]>
          (<["sample_output" := VStr ""]>
             (<["generated_prompt" := VStr ""]>
                (<["editable_prompt" := VStr ""]>
                   (<["manually_edited" := VBool false]> ∅)))))).

Definition addPage (newId : string) (p : list Row) : list Row :=
  p ++ [new_page newId (length p)].

(** The row [addSection] appends. *)
Definition new_section (newId : string) (count : nat) : Row :=
  <["__localId" := VStr newId]>
    (<["name" := VStr ""]>
       (<["sequence" := VNum (count + 1)]>
          (<["type" := VStr "list"]>
             (<["style_tone" := VStr "Professional"]>
                (<["formatting_rules" := VList []]>
                   (<["length_word_count" := VStr ""]>
                      (<["sample_output" := VStr ""]>
                         (<["generated_prompt" := VStr ""]>
                            (<["editable_prompt" := VStr ""]>
                               (<["manually_edited" := VBool false]> ∅)))))))))).

Definition addSection (newId : string) (s : list Row) : list Row :=
  s ++ [new_section newId (length s)].

(** [removePage(localId)] and [removeSection(localId)] *)
Definition removePage (localId : string) (p : list Row) : list Row :=
  filter (λ x, ¬ has_id localId x) p.

Definition removeSection (localId : string) (s : list Row) : list Row :=
  filter (λ x, ¬ has_id localId x) s.

(** [updatePage(localId, key, val)]; the inputs pass [e.target.value],
    a string. *)
Definition updatePage (localId key val : string) (p : list Row) : list Row :=
  let copy :=
    (λ it : Row, if decide (has_id localId it) then <[key := VStr val]> it else it) <$> p in
  if decide (key = "editable_prompt") then
    (λ it : Row,
       if decide (has_id localId it) then <["manually_edited" := VBool true]> it else it)
      <$> copy
  else copy.

Definition updateSection (localId key val : string) (s : list Row) : list Row :=
  let copy :=
    (λ it : Row, if decide (has_id localId it) then <[key := VStr val]> it else it) <$> s in
  if decide (key = "editable_prompt") then
    (λ it : Row,
       if decide (has_id localId it) then <["manually_edited" := VBool true]> it else it)
      <$> copy
  else copy.

(** [s.split(",")] *)
Fixpoint split_comma (s : string) : list string :=
  match s with
  | EmptyString => [EmptyString]
  | String c r =>
      if bool_decide (c = ","%char) then EmptyString :: split_comma r
      else match split_comma r with
           | [] => [String c EmptyString]
           | p :: ps => String c p :: ps
           end
  end.

(** [s.trim()]: white space is dropped at the start, then at the end. *)
Fixpoint trimStart (s : string) : string :=
  match s with
  | EmptyString => EmptyString
  | String c r => if is_space c then trimStart r else s
  end.

Fixpoint trimEnd (s : string) : string :=
  match s with
  | EmptyString => EmptyString
  | String c r =>
      match trimEnd r with
      | EmptyString => if is_space c then EmptyString else String c EmptyString
      | t => String c t
      end
  end.

Definition trim (s : string) : string := trimEnd (trimStart s).

(** [rules.join(", ")] *)
Fixpoint join_rules (rules : list string) : string :=
  match rules with
  | [] => EmptyString
  | r :: rest =>
      match rest with
      | [] => r
      | _ :: _ => r +:+ ", " +:+ join_rules rest
      end
  end.

(** [text.split(",").map((r) => r.trim()).filter(Boolean)] *)
Definition parse_rules (text : string) : list string :=
  filter (λ r, r ≠ EmptyString) (trim <$> split_comma text).

(** The [formatting_rules] of the payload: an array is sent as it is;
    anything else goes through [(v || "").split(",")...], which parses
    a text, takes a missing or falsy value for the empty text, and
    throws ([None]) on a number or boolean that is truthy. *)
Definition payload_rules (v : option cfgval) : option (list string) :=
  match v with
  | Some (VList l) => Some l
  | Some (VStr s) => Some (parse_rules s)
  | None | Some (VNum 0) | Some (VBool false) => Some (parse_rules EmptyString)
  | Some (VNum (S _)) | Some (VBool true) => None
  end.

(** The value the input shows: an array joined by [", "], anything
    else as it is. *)
Definition shown_rules (v : option cfgval) : option cfgval :=
  match v with
  | Some (VList l) => Some (VStr (join_rules l))
  | _ => v
  end.

(** A text that does not begin with white space. *)
Definition starts_solid (s : string) : Prop :=
  match s with
  | EmptyString => True
  | String c _ => is_space c = false
  end.

(** A rule as [parse_rules] yields it: not empty, without a comma,
    without white space at either end. *)
Definition rule_ok (r : string) : Prop :=
  r ≠ EmptyString ∧ lacks ","%char r = true ∧ trim r = r.

(** The guard of [handleSave]: [!row.name.trim()]; [None] when [name]
    is not a string and the call of [trim] throws. *)
Definition name_blank (row : Row) : option bool :=
  match row !! "name" with
  | Some (VStr s) => Some (trim_is_empty s)
  | _ => None
  end.

(** [rows.some((r) => !r.name.trim())] *)
Fixpoint some_blank (rows : list Row) : option bool :=
  match rows with
  | [] => Some false
  | r :: rest =>
      match name_blank r with
      | None => None
      | Some true => Some true
      | Some false => some_blank rest
      end
  end.

Inductive Validation : Type :=
  | Blocked (notice : string)
  | NameTypeError
  | Passed.

(** The two checks [handleSave] makes before it sends anything. *)
Definition validate (documentName : string) (pages sections : list Row) : Validation :=
  if trim_is_empty documentName then Blocked "Document name is required"
  else match some_blank sections with
       | None => NameTypeError
       | Some true => Blocked "Each page and section needs a name"
       | Some false =>
           match some_blank pages with
           | None => NameTypeError
           | Some true => Blocked "Each page and section needs a name"
           | Some false => Passed
           end
       end.

End Configure.

(** ** UploadPage: the source text and its draft *)

Module UploadForm.

(** [localStorage]: [getItem] is a lookup, [setItem] an insertion,
    [removeItem] a deletion. *)
Abbreviation Storage := (gmap string string).

Definition draft_key : string := "draft_raw_text".

(** An entry of the document list. *)
Record DocEntry : Type := mkDocEntry {
  entry_id : jsval;
  filename : jsval;
  entry_raw_text : jsval;
}.

(** The state cells of [UploadPage], the browser's storage, and the
    route the page last navigated to. *)
Record Form : Type := mkForm {
  documents : list DocEntry;
  rawText : string;
  loading : bool;
  snack : Snack;
  menuAnchor : option elem;
  selectedDoc : option DocEntry;
  localStorage : Storage;
  navigated : option string;
}.

(** The state at mount: [useState(localStorage.getItem("draft_raw_text") || "")]. *)
Definition mount (storage : Storage) : Form :=
  mkForm [] (default "" (storage !! draft_key)) false (mkSnack false "" SevError)
    None None storage None.

Definition set_text (text : string) (storage : Storage) (f : Form) : Form :=
  mkForm (documents f) text (loading f) (snack f) (menuAnchor f) (selectedDoc f)
    storage (navigated f).

Definition set_loading (v : bool) (f : Form) : Form :=
  mkForm (documents f) (rawText f) v (snack f) (menuAnchor f) (selectedDoc f)
    (localStorage f) (navigated f).

Definition set_snack (v : Snack) (f : Form) : Form :=
  mkForm (documents f) (rawText f) (loading f) v (menuAnchor f) (selectedDoc f)
    (localStorage f) (navigated f).

Definition set_documents (v : list DocEntry) (f : Form) : Form :=
  mkForm v (rawText f) (loading f) (snack f) (menuAnchor f) (selectedDoc f)
    (localStorage f) (navigated f).

Definition set_menu (anchor : option elem) (doc : option DocEntry) (f : Form) : Form :=
  mkForm (documents f) (rawText f) (loading f) (snack f) anchor doc
    (localStorage f) (navigated f).

(** [handlePasteChange], [handleClear], [handleNewDoc], [handleLoadDoc] *)
Definition handlePasteChange (value : string) (f : Form) : Form :=
  set_text value (<[draft_key := value]> (localStorage f)) f.

Definition handleClear (f : Form) : Form :=
  set_text "" (delete draft_key (localStorage f)) f.

Definition handleNewDoc (f : Form) : Form :=
  set_text "" (delete draft_key (localStorage f)) f.

Definition handleLoadDoc (doc : DocEntry) (f : Form) : Form :=
  set_text (or_empty (entry_raw_text doc))
    (<[draft_key := or_empty (entry_raw_text doc)]> (localStorage f)) f.

(** [a || b || ""] on two payload fields. *)
Definition first_text (a b : jsval) : string :=
  if truthy a then template a else if truthy b then template b else "".

(** [fetchDocs()] when its request settles: the list is replaced on
    success ([res.data?.documents || []]) and kept on failure. *)
Definition fetchDocs_settle (res : option (option (list DocEntry))) (f : Form) : Form :=
  match res with
  | Some docs => set_documents (or_nil docs) f
  | None => f
  end.

(** What the upload request comes back with. *)
Inductive UploadResponse : Type :=
  | Extracted (raw_text extracted_text : jsval) (docs : option (option (list DocEntry)))
  | UploadRejected (detail : jsval).

(** [handleFileUpload(file)]: nothing without a file; otherwise the
    indicator is set, and on settlement text and draft are replaced by
    the extracted text, or the failure is reported. *)
Definition handleFileUpload_start (has_file : bool) (f : Form) : option Form :=
  if has_file then Some (set_loading true f) else None.

Definition handleFileUpload_settle (res : UploadResponse) (f : Form) : Form :=
  match res with
  | Extracted raw_text extracted_text docs =>
      let extracted := first_text raw_text extracted_text in
      let f1 := set_text extracted (<[draft_key := extracted]> (localStorage f)) f in
      let f2 := fetchDocs_settle docs f1 in
      set_loading false
        (set_snack (mkSnack true "File uploaded and text extracted" SevSuccess) f2)
  | UploadRejected detail =>
      set_loading false
        (set_snack
           (mkSnack true (if truthy detail then template detail else "Upload/extract failed")
              SevError) f)
  end.

(** [hasContent], which decides whether the Generate and Clear buttons
    or the Upload button are rendered. *)
Definition hasContent (f : Form) : bool := negb (trim_is_empty (rawText f)).

(** The stored configuration [handleGenerate] reads ([null] when the
    request for it fails). *)
Record Config : Type := mkConfig {
  created_by : jsval;
  document_type : jsval;
  cfg_pages : option (list Configure.Row);
  cfg_sections : option (list Configure.Row);
}.

Record GeneratePayload : Type := mkGeneratePayload {
  payload_raw_text : string;
  payload_created_by : string;
  payload_pages : list Configure.Row;
  payload_sections : list Configure.Row;
}.

Definition generate_payload (config : option Config) (f : Form) : GeneratePayload :=
  mkGeneratePayload (rawText f)
    (first_text (default JUndefined (created_by <$> config))
       (default JUndefined (document_type <$> config)))
    (or_nil (config ≫= cfg_pages))
    (or_nil (config ≫= cfg_sections)).

(** [handleGenerate()] up to its first [await]: [None] when the guard
    reports the missing text and returns. *)
Definition handleGenerate_guard (f : Form) : Form * bool :=
  if trim_is_empty (rawText f)
  then (set_snack (mkSnack true "Please upload or paste text first" SevError) f, false)
  else (set_loading true f, true).

(** What the generate request comes back with: the two places an id
    may stand in the response body, or a rejection. *)
Inductive GenerateResponse : Type :=
  | Generated (id document_id : jsval)
  | GenerateRejected (detail : jsval).

Definition generate_failed (detail : jsval) (f : Form) : Form :=
  set_loading false
    (set_snack
       (mkSnack true (if truthy detail then template detail else "Failed to generate document")
          SevError) f).

Definition handleGenerate_settle (res : GenerateResponse) (f : Form) : Form :=
  match res with
  | Generated id document_id =>
      let chosen := if truthy id then id else document_id in
      if truthy chosen then
        set_loading false
          (mkForm (documents f) (rawText f) (loading f) (snack f) (menuAnchor f)
             (selectedDoc f) (delete draft_key (localStorage f))
             (Some ("/viewer/" +:+ template chosen)))
      else generate_failed JUndefined f
  | GenerateRejected detail => generate_failed detail f
  end.

(** [handleMenuOpen], [handleMenuClose], and [handleDeleteDoc] run
    against the outcome of its request (and of the list refresh that
    follows a deletion). *)
Definition handleMenuOpen (anchor : elem) (doc : DocEntry) (f : Form) : Form :=
  set_menu (Some anchor) (Some doc) f.

Definition handleMenuClose (f : Form) : Form := set_menu None None f.

Definition handleDeleteDoc (deleted : bool)
    (docs : option (option (list DocEntry))) (f : Form) : Form :=
  match selectedDoc f with
  | None => f
  | Some _ =>
      handleMenuClose
        (if deleted
         then set_snack (mkSnack true "Document deleted" SevSuccess) (fetchDocs_settle docs f)
         else set_snack (mkSnack true "Failed to delete document" SevError) f)
  end.

(** What can happen on the page, one event at a time. *)
Inductive Action : Type :=
  | Paste (value : string)
  | Clear
  | NewDoc
  | LoadDoc (doc : DocEntry)
  | UploadClicked (has_file : bool)
  | UploadSettled (res : UploadResponse)
  | DocsFetched (res : option (option (list DocEntry)))
  | MenuOpened (anchor : elem) (doc : DocEntry)
  | MenuClosed
  | DeleteSettled (deleted : bool) (docs : option (option (list DocEntry)))
  | GenerateClicked
  | GenerateSettled (res : GenerateResponse).

Definition act (f : Form) (a : Action) : Form :=
  match a with
  | Paste value => handlePasteChange value f
  | Clear => handleClear f
  | NewDoc => handleNewDoc f
  | LoadDoc doc => handleLoadDoc doc f
  | UploadClicked has_file => default f (handleFileUpload_start has_file f)
  | UploadSettled res => handleFileUpload_settle res f
  | DocsFetched res => fetchDocs_settle res f
  | MenuOpened anchor doc => handleMenuOpen anchor doc f
  | MenuClosed => handleMenuClose f
  | DeleteSettled deleted docs => handleDeleteDoc deleted docs f
  | GenerateClicked => (handleGenerate_guard f).1
  | GenerateSettled res => handleGenerate_settle res f
  end.

Definition run (f : Form) (actions : list Action) : Form := foldl act f actions.

End UploadForm.

(** ** api.js: the failure message, as the login and signup pages use it *)

Module Api.

(** The parts of a failed request the interceptor and the pages read:
    [error.response.data.detail], [error.response.data.message] (both
    absent without a response) and [error.message]. *)
Record ApiError : Type := mkApiError {
  detail : jsval;
  data_message : jsval;
  error_message : jsval;
}.

(** [message] of the response interceptor. *)
Definition friendlyMessage (e : ApiError) : string :=
  if truthy (detail e) then template (detail e)
  else if truthy (data_message e) then template (data_message e)
  else if truthy (error_message e) then template (error_message e)
  else "Network error".

(** The rejected value: [{ ...error, friendlyMessage: message, ... }]. *)
Record FriendlyError : Type := mkFriendlyError {
  cause : ApiError;
  friendly : string;
}.

Definition intercept (e : ApiError) : FriendlyError := mkFriendlyError e (friendlyMessage e).

(** [err.friendlyMessage || err.response?.data?.detail || fallback], as
    in [handleLogin] ("Invalid credentials") and [handleSignup]
    ("Signup failed"). *)
Definition page_message (fallback : string) (err : FriendlyError) : string :=
  match friendly err with
  | String _ _ => friendly err
  | EmptyString =>
      if truthy (detail (cause err)) then template (detail (cause err)) else fallback
  end.

Definition login_message : FriendlyError → string := page_message "Invalid credentials".
Definition signup_message : FriendlyError → string := page_message "Signup failed".

End Api.

(** ** Routes and the route guard *)

Module Routes.

(** The stored user, as [JSON.parse] returns it: [role] is the only
    field the routes read. *)
Record User : Type := mkUser { role : jsval }.

Inductive Path : Type :=
  | PRoot
  | PLogin
  | PSignup
  | PUpload
  | PConfigure
  | PViewer (id : string)
  | PAdmin.

Inductive Page : Type :=
  | LoginPage
  | SignupPage
  | UploadPage
  | ConfigurePage
  | ViewerPage (id : string)
  | AdminPage.

(** What a route's element renders: a page, or [<Navigate to=... />]. *)
Inductive Rendered : Type :=
  | Shows (page : Page)
  | Redirects (to : Path).

(** [allowedRoles.includes(user.role)] *)
Definition role_allowed (roles : list string) (u : User) : bool :=
  match role u with
  | JStr s => bool_decide (s ∈ roles)
  | _ => false
  end.

(** [ProtectedRoute({ children, allowedRoles })]; a token is missing
    when absent or empty. *)
Definition ProtectedRoute (user : option User) (token : option string)
    (allowedRoles : option (list string)) (children : Page) : Rendered :=
  match user, token with
  | Some u, Some (String _ _) =>
      match allowedRoles with
      | Some roles => if role_allowed roles u then Shows children else Redirects PUpload
      | None => Shows children
      end
  | _, _ => Redirects PLogin
  end.

(** The route table of [App]. *)
Definition route (user : option User) (token : option string) (path : Path) : Rendered :=
  match path with
  | PRoot => match user with Some _ => Redirects PUpload | None => Redirects PLogin end
  | PLogin => Shows LoginPage
  | PSignup => Shows SignupPage
  | PUpload => ProtectedRoute user token None UploadPage
  | PConfigure => ProtectedRoute user token None ConfigurePage
  | PViewer id => ProtectedRoute user token None (ViewerPage id)
  | PAdmin => ProtectedRoute user token (Some ["superadmin"]) AdminPage
  end.

(** Following redirects, at most [fuel] of them. *)
Fixpoint resolve (fuel : nat) (user : option User) (token : option string) (path : Path)
    : option Page :=
  match route user token path with
  | Shows page => Some page
  | Redirects to =>
      match fuel with
      | 0 => None
      | S fuel' => resolve fuel' user token to
      end
  end.

(** The navigation bar shows Admin Panel when [user?.role === "superadmin"]. *)
Definition shows_admin_button (user : option User) : bool :=
  match user with
  | Some u => bool_decide (role u = JStr "superadmin")
  | None => false
  end.

(** Where [handleLogin] navigates after a successful login. *)
Definition login_target (u : User) : Path :=
  if bool_decide (role u = JStr "superadmin") then PAdmin else PUpload.

Definition needs_session (page : Page) : bool :=
  match page with
  | LoginPage | SignupPage => false
  | _ => true
  end.

Definition has_session (user : option User) (token : option string) : Prop :=
  is_Some user ∧ ∃ c t, token = Some (String c t).

End Routes.

(** The draft in storage mirrors the text on screen, as long as the
    upload page has not navigated away. *)
Definition draft_synced (f : UploadForm.Form) : Prop :=
  UploadForm.navigated f = None →
  UploadForm.rawText f
    = default "" (UploadForm.localStorage f !! UploadForm.draft_key).

(** * Properties *)

Section ViewerProperties.
Context `{browser : Browser}.

(** ** Normalisation *)

Lemma normalizeShape_idem (o : slot) (mode : Mode) :
  normalizeShape (normalizeShape o mode) mode = normalizeShape o mode.
Proof.
  destruct o as [[n c t l]|]; [|done].
  destruct mode, t as [| |[|]], l as [| |[|]]; reflexivity.
Qed.

Lemma normalizeShape_page (o : slot) (r : Region) :
  normalizeShape o MPage = Some r →
  truthy (layout r) = true ∧
  ∃ r0, o = Some r0 ∧ name r = name r0 ∧ content r = content r0 ∧ rtype r = rtype r0 ∧
        layout r = (if truthy (layout r0) then layout r0 else JStr "text").
Proof.
  destruct o as [[n c t l]|]; [|done].
  intros [= <-]. destruct t as [| |[|]], l as [| |[|]]; simpl; eauto 10.
Qed.

Lemma normalizeShape_section (o : slot) (r : Region) :
  normalizeShape o MSection = Some r →
  truthy (rtype r) = true ∧
  ∃ r0, o = Some r0 ∧ name r = name r0 ∧ content r = content r0 ∧ layout r = layout r0 ∧
        rtype r = (if truthy (rtype r0) then rtype r0 else JStr "text").
Proof.
  destruct o as [[n c t l]|]; [|done].
  intros [= <-]. destruct t as [| |[|]], l as [| |[|]]; simpl; eauto 10.
Qed.

(** What [normalizeShape] makes of an object. *)
Lemma normalizeShape_page_obj (r0 : Region) :
  normalizeShape (Some r0) MPage
    = Some (mkRegion (name r0) (content r0) (rtype r0)
              (if truthy (layout r0) then layout r0 else JStr "text")).
Proof. destruct r0 as [n c t l]. destruct t as [| |[|]], l as [| |[|]]; reflexivity. Qed.

Lemma normalizeShape_section_obj (r0 : Region) :
  normalizeShape (Some r0) MSection
    = Some (mkRegion (name r0) (content r0)
              (if truthy (rtype r0) then rtype r0 else JStr "text") (layout r0)).
Proof. destruct r0 as [n c t l]. destruct t as [| |[|]], l as [| |[|]]; reflexivity. Qed.

(** C6. Normalising twice is normalising once, for every payload (also
    an absent one, or one without [pages] or [sections]); the result
    always carries both arrays, slot for slot: every page object of the
    payload is kept at its index with its [layout] replaced by "text"
    if it was missing or empty and its other fields unchanged, every
    section object likewise with its [type], and a [null] slot stays
    [null]; so every page object of the result has a non-empty [layout]
    and every section object a non-empty [type].  The other fields of
    the document are kept. *)
Theorem normalizeDocument_idempotent_total (d : option Doc) :
  normalizeDocument (Some (normalizeDocument d)) = normalizeDocument d ∧
  ∃ ps ss,
    pages (normalizeDocument d) = Some ps ∧
    sections (normalizeDocument d) = Some ss ∧
    length ps = length (or_nil (d ≫= pages)) ∧
    length ss = length (or_nil (d ≫= sections)) ∧
    (∀ i r0, or_nil (d ≫= pages) !! i = Some (Some r0) →
       ps !! i = Some (Some (mkRegion (name r0) (content r0) (rtype r0)
                               (if truthy (layout r0) then layout r0 else JStr "text")))) ∧
    (∀ i r0, or_nil (d ≫= sections) !! i = Some (Some r0) →
       ss !! i = Some (Some (mkRegion (name r0) (content r0)
                               (if truthy (rtype r0) then rtype r0 else JStr "text")
                               (layout r0)))) ∧
    (∀ i, or_nil (d ≫= pages) !! i = Some None → ps !! i = Some None) ∧
    (∀ i, or_nil (d ≫= sections) !! i = Some None → ss !! i = Some None) ∧
    (∀ d0, d = Some d0 →
       id (normalizeDocument d) = id d0 ∧ title (normalizeDocument d) = title d0 ∧
       raw_text (normalizeDocument d) = raw_text d0) ∧
    (∀ i r, ps !! i = Some (Some r) →
       truthy (layout r) = true ∧
       ∃ r0, or_nil (d ≫= pages) !! i = Some (Some r0) ∧
             name r = name r0 ∧ content r = content r0 ∧ rtype r = rtype r0 ∧
             layout r = (if truthy (layout r0) then layout r0 else JStr "text")) ∧
    (∀ i r, ss !! i = Some (Some r) →
       truthy (rtype r) = true ∧
       ∃ r0, or_nil (d ≫= sections) !! i = Some (Some r0) ∧
             name r = name r0 ∧ content r = content r0 ∧ layout r = layout r0 ∧
             rtype r = (if truthy (rtype r0) then rtype r0 else JStr "text")).
Proof.
  split.
  - destruct d as [d|]; [|reflexivity].
    unfold normalizeDocument; simpl. f_equal; f_equal.
    + rewrite <- list_fmap_compose. apply list_fmap_ext.
      intros i x _. apply normalizeShape_idem.
    + rewrite <- list_fmap_compose. apply list_fmap_ext.
      intros i x _. apply normalizeShape_idem.
  - destruct d as [d|]; simpl.
    + eexists _, _. split; [reflexivity|]. split; [reflexivity|].
      rewrite !length_fmap. split; [done|]. split; [done|].
      split.
      { intros i r0 Hi. apply list_lookup_fmap_Some. exists (Some r0).
        split; [symmetry; apply normalizeShape_page_obj|exact Hi]. }
      split.
      { intros i r0 Hi. apply list_lookup_fmap_Some. exists (Some r0).
        split; [symmetry; apply normalizeShape_section_obj|exact Hi]. }
      split.
      { intros i Hi. apply list_lookup_fmap_Some. exists None. split; [done|exact Hi]. }
      split.
      { intros i Hi. apply list_lookup_fmap_Some. exists None. split; [done|exact Hi]. }
      split; [by intros d0 [= <-]|].
      split.
      * intros i r Hi. rewrite list_lookup_fmap in Hi.
        destruct (or_nil (pages d) !! i) as [o|] eqn:Ho; [|done].
        simpl in Hi. injection Hi as Hi.
        destruct (normalizeShape_page _ _ Hi) as (Ht & r0 & -> & Hr).
        split; [done|]. by exists r0.
      * intros i r Hi. rewrite list_lookup_fmap in Hi.
        destruct (or_nil (sections d) !! i) as [o|] eqn:Ho; [|done].
        simpl in Hi. injection Hi as Hi.
        destruct (normalizeShape_section _ _ Hi) as (Ht & r0 & -> & Hr).
        split; [done|]. by exists r0.
    + exists [], []. repeat split; try done; intros i; intros;
        by rewrite lookup_nil in *.
Qed.

(** ** Repopulation and the edited flags *)

Lemma writes_clean_only_refl st : writes_clean_only st st.
Proof. repeat split; auto. Qed.

Lemma writes_clean_only_trans st1 st2 st3 :
  writes_clean_only st1 st2 → writes_clean_only st2 st3 → writes_clean_only st1 st3.
Proof.
  intros (Hr1 & Hf1 & Hw1) (Hr2 & Hf2 & Hw2).
  split; [congruence|]. split; [congruence|].
  intros el. destruct (Hw2 el) as [He2|(k & Hk & Hd)].
  - rewrite He2. apply Hw1.
  - right. exists k. unfold isDirty in *. rewrite <- Hr1, <- Hf1. done.
Qed.

Lemma html_set_markup el markup st el' :
  html (set_markup el markup st) el' = if decide (el = el') then markup else html st el'.
Proof.
  unfold html, set_markup; simpl. rewrite lookup_insert.
  by destruct (decide (el = el')).
Qed.

Lemma html_write_html el text st el' :
  html (write_html el text st) el'
    = if decide (el = el') then reserialise el text else html st el'.
Proof. apply html_set_markup. Qed.

Lemma populate_region_clean_only mode st idx pg :
  writes_clean_only st (populate_region mode st idx pg).1.
Proof.
  unfold populate_region.
  destruct (pageContentRefs st !! refKey mode idx) as [el|] eqn:Hel;
    [|apply writes_clean_only_refl].
  destruct (isDirty st (refKey mode idx)) eqn:Hd; [apply writes_clean_only_refl|].
  destruct pg as [r|]; [|apply writes_clean_only_refl].
  simpl. split; [done|]. split; [done|].
  intros el'. rewrite html_write_html.
  destruct (decide (el = el')) as [<-|]; [right; eauto|by left].
Qed.

Lemma forEach_from_clean_only mode arr : ∀ st idx,
  writes_clean_only st (forEach_from (populate_region mode) st idx arr).1.
Proof.
  induction arr as [|x rest IH]; intros st idx; simpl; [apply writes_clean_only_refl|].
  pose proof (populate_region_clean_only mode st idx x) as H1.
  destruct (populate_region mode st idx x) as [st' []]; simpl in *; [|done].
  eapply writes_clean_only_trans; [exact H1|apply IH].
Qed.

Lemma populate_clean_only doc st :
  writes_clean_only st (populateEditorsFromDocument doc st).1.
Proof.
  destruct doc as [d|]; simpl; [|apply writes_clean_only_refl].
  unfold forEach.
  pose proof (forEach_from_clean_only MPage (or_nil (pages d)) st 0) as H1.
  destruct (forEach_from (populate_region MPage) st 0 (or_nil (pages d))) as [st1 []];
    simpl in *; [|done].
  eapply writes_clean_only_trans; [exact H1|apply forEach_from_clean_only].
Qed.

Lemma repopulate_clean_only docs : ∀ st, writes_clean_only st (repopulate docs st).
Proof.
  unfold repopulate.
  induction docs as [|d docs IH]; intros st; simpl; [apply writes_clean_only_refl|].
  eapply writes_clean_only_trans; [apply populate_clean_only|apply IH].
Qed.

Lemma clean_only_keeps_dirty st st' key el :
  writes_clean_only st st' →
  handles_distinct st →
  pageContentRefs st !! key = Some el →
  isDirty st key = true →
  live st' key = live st key ∧ html st' el = html st el ∧ isDirty st' key = true.
Proof.
  intros (Hr & Hf & Hw) Hinj Hel Hd.
  assert (Hsame : html st' el = html st el).
  { destruct (Hw el) as [?|(k & Hk & Hc)]; [done|].
    rewrite (Hinj _ _ _ Hk Hel) in Hc. congruence. }
  split. { unfold live. rewrite Hr, Hel. simpl. by rewrite Hsame. }
  split; [done|]. unfold isDirty in *. by rewrite Hf.
Qed.

Lemma refCallback_state mode idx item e st :
  (refCallback mode idx item (Some e) st).1 =
  mkState (documentData st) (search st) (loading st) (snack st) (fontFamily st)
    (fontSize st) (viewerScrollRef st)
    (<[refKey mode idx := e]> (pageContentRefs st)) (localEditedRef st)
    (if ref_writes mode idx item e st
     then <[e := reserialise e (or_empty (item_content item))]> (innerHTML st)
     else innerHTML st)
    (timers st).
Proof.
  unfold refCallback, ref_writes, isDirty, html, write_html, set_markup; simpl.
  destruct (negb _ && _); simpl; [|done]. by destruct item.
Qed.

(** The ref callback obeys the same rule: under a set flag it
    registers the element and writes nothing. *)
Lemma refCallback_dirty_keeps_markup mode idx item el st :
  isDirty st (refKey mode idx) = true →
  innerHTML (refCallback mode idx item el st).1 = innerHTML st.
Proof.
  intros Hd. destruct el as [e|]; [|done].
  rewrite refCallback_state. unfold ref_writes. by rewrite Hd.
Qed.

(** A local edit sets the flag of the edited region. *)
Lemma onInput_marks_dirty mode idx st :
  is_Some (pageContentRefs st !! refKey mode idx) →
  isDirty (onInput mode idx st) (refKey mode idx) = true.
Proof.
  intros [node Hn]. unfold onInput, isDirty. rewrite Hn. simpl.
  by rewrite lookup_insert_eq.
Qed.

(** C1. A region whose flag is set keeps its live markup through any
    sequence of repopulation calls, whatever documents they carry, and
    its flag stays set (repopulation never touches flags or registry);
    an element whose markup did change is registered under a key whose
    flag is clean. *)
Theorem dirty_dominance (st : State) (key : string) (el : elem) (docs : list (option Doc)) :
  handles_distinct st →
  pageContentRefs st !! key = Some el →
  isDirty st key = true →
  live (repopulate docs st) key = live st key ∧
  html (repopulate docs st) el = html st el ∧
  isDirty (repopulate docs st) key = true ∧
  (∀ k el', pageContentRefs st !! k = Some el' →
            html (repopulate docs st) el' ≠ html st el' → isDirty st k = false).
Proof.
  intros Hinj Hel Hd.
  pose proof (repopulate_clean_only docs st) as Hc.
  destruct (clean_only_keeps_dirty _ _ _ _ Hc Hinj Hel Hd) as (H1 & H2 & H3).
  repeat (split; [done|]).
  destruct Hc as (Hr & Hf & Hw).
  intros k el' Hk Hne.
  destruct (Hw el') as [?|(k' & Hk' & Hc)]; [done|].
  by rewrite (Hinj _ _ _ Hk Hk').
Qed.

Lemma handles_distinct_b_sound st : handles_distinct_b st = true → handles_distinct st.
Proof.
  unfold handles_distinct_b. intros Hnd%bool_decide_eq_true k1 k2 el H1 H2.
  apply elem_of_map_to_list, list_elem_of_lookup in H1 as [i Hi].
  apply elem_of_map_to_list, list_elem_of_lookup in H2 as [j Hj].
  assert ((map_to_list (pageContentRefs st)).*2 !! i = Some el) as Hi'
    by (by rewrite list_lookup_fmap, Hi).
  assert ((map_to_list (pageContentRefs st)).*2 !! j = Some el) as Hj'
    by (by rewrite list_lookup_fmap, Hj).
  pose proof (NoDup_lookup _ _ _ _ Hnd Hi' Hj') as ->.
  congruence.
Qed.

(** ** Registry keys *)

Lemma refKey_inj m1 i1 m2 i2 : refKey m1 i1 = refKey m2 i2 → m1 = m2 ∧ i1 = i2.
Proof.
  unfold refKey. destruct m1, m2; simpl; intros H; try discriminate.
  - split; [done|]. injection H as H. by apply (inj pretty).
  - split; [done|]. injection H as H. by apply (inj pretty).
Qed.

(** ** Reset *)

Lemma reset_flags_spec mode arr : ∀ st idx,
  map_Forall (λ _ v, v = false) (localEditedRef st) →
  map_Forall (λ _ v, v = false)
    (localEditedRef (forEach_from (reset_flag mode) st idx arr).1) ∧
  pageContentRefs (forEach_from (reset_flag mode) st idx arr).1 = pageContentRefs st ∧
  innerHTML (forEach_from (reset_flag mode) st idx arr).1 = innerHTML st.
Proof.
  induction arr as [|x rest IH]; intros st idx Hall; simpl; [done|].
  destruct (IH (set_localEditedRef (<[refKey mode idx:=false]> (localEditedRef st)) st)
              (S idx)) as (H1 & H2 & H3).
  { simpl. by apply map_Forall_insert_2. }
  done.
Qed.

Lemma resetRefs_spec doc st :
  all_clean (resetRefs doc st) ∧
  pageContentRefs (resetRefs doc st) = ∅ ∧
  innerHTML (resetRefs doc st) = innerHTML st.
Proof.
  unfold resetRefs, forEach.
  set (st0 := set_pageContentRefs ∅ (set_localEditedRef ∅ st)).
  destruct (reset_flags_spec MPage (or_nil (doc ≫= pages)) st0 0) as (H1 & H2 & H3).
  { simpl. apply map_Forall_empty. }
  set (st1 := (forEach_from (reset_flag MPage) st0 0 (or_nil (doc ≫= pages))).1) in *.
  destruct (reset_flags_spec MSection (or_nil (doc ≫= sections)) st1 0 H1)
    as (H4 & H5 & H6).
  split; [|split; [by rewrite H5, H2|by rewrite H6, H3]].
  intros k. unfold isDirty.
  destruct (localEditedRef _ !! k) as [v|] eqn:Hk; [|done].
  simpl. by apply (H4 k v).
Qed.

Lemma refCallback_flags mode idx item el st :
  localEditedRef (refCallback mode idx item el st).1 = localEditedRef st.
Proof.
  unfold refCallback. destruct el as [e|]; [|done].
  destruct (negb _ && _); [|done]. by destruct item.
Qed.

Lemma register_all_flags regs : ∀ st,
  localEditedRef (register_all regs st) = localEditedRef st.
Proof.
  unfold register_all.
  induction regs as [|[[[mode idx] item] el] regs IH]; intros st; simpl; [done|].
  rewrite IH. apply refCallback_flags.
Qed.

Lemma all_clean_flags st st' :
  localEditedRef st' = localEditedRef st → all_clean st → all_clean st'.
Proof. intros Hf Hc k. unfold isDirty. rewrite Hf. apply Hc. Qed.

Lemma populate_region_clean mode st idx r :
  all_clean st →
  populate_region mode st idx (Some r) =
    (match pageContentRefs st !! refKey mode idx with
     | Some el => write_html el (or_empty (content r)) st
     | None => st
     end, Normal).
Proof.
  intros Hc. unfold populate_region.
  destruct (pageContentRefs st !! refKey mode idx); [|done]. by rewrite Hc.
Qed.

Lemma forEach_populate_clean mode arr : ∀ st idx0,
  all_clean st → handles_distinct st → Forall is_Some arr →
  (forEach_from (populate_region mode) st idx0 arr).2 = Normal ∧
  (∀ j r el, arr !! j = Some (Some r) →
     pageContentRefs st !! refKey mode (idx0 + j) = Some el →
     html (forEach_from (populate_region mode) st idx0 arr).1 el
       = reserialise el (or_empty (content r))) ∧
  (∀ el, (∀ j, j < length arr → pageContentRefs st !! refKey mode (idx0 + j) ≠ Some el) →
     html (forEach_from (populate_region mode) st idx0 arr).1 el = html st el).
Proof.
  induction arr as [|x rest IH]; intros st idx0 Hc Hinj Hall.
  { simpl. split; [done|]. split; [|done]. intros j r el Hj. by rewrite lookup_nil in Hj. }
  apply Forall_cons in Hall as [[r0 ->] Hall].
  simpl. rewrite (populate_region_clean _ _ _ _ Hc).
  set (st' := match pageContentRefs st !! refKey mode idx0 with
              | Some el => write_html el (or_empty (content r0)) st
              | None => st
              end).
  assert (Hrefs : pageContentRefs st' = pageContentRefs st)
    by (subst st'; by destruct (pageContentRefs st !! refKey mode idx0)).
  assert (Hflags : localEditedRef st' = localEditedRef st)
    by (subst st'; by destruct (pageContentRefs st !! refKey mode idx0)).
  assert (Hc' : all_clean st') by (by apply (all_clean_flags st)).
  assert (Hinj' : handles_distinct st').
  { intros k1 k2 el. rewrite Hrefs. apply Hinj. }
  destruct (IH st' (S idx0) Hc' Hinj' Hall) as (Hn & Hset & Hframe).
  split; [done|]. split.
  - intros [|j] r el Hj Hel.
    + simpl in Hj. injection Hj as ->. rewrite Nat.add_0_r in Hel.
      rewrite Hframe.
      * subst st'. rewrite Hel, html_write_html. by rewrite decide_True.
      * intros j Hlt. rewrite Hrefs. intros Hj.
        destruct (refKey_inj _ _ _ _ (Hinj _ _ _ Hj Hel)) as [_ ?]. lia.
    + simpl in Hj. apply (Hset j r el Hj).
      rewrite Hrefs. by replace (S idx0 + j) with (idx0 + S j) by lia.
  - intros el Hno. rewrite Hframe.
    + subst st'. specialize (Hno 0). rewrite Nat.add_0_r in Hno.
      destruct (pageContentRefs st !! refKey mode idx0) as [el0|] eqn:Hel0; [|done].
      rewrite html_write_html. rewrite decide_False; [done|].
      intros ->. apply Hno; [simpl; lia|done].
    + intros j Hlt. rewrite Hrefs.
      replace (S idx0 + j) with (idx0 + S j) by lia. apply Hno. simpl. lia.
Qed.

(** C3, amended.  After [resetRefs], however the handles
    are registered again and whatever flags were set before,
    repopulating from a document (all of whose slots are objects)
    completes and assigns to every registered region that document's
    content field: the region's live markup is what the browser reads
    back for the field, whatever it was before, and it is the field
    itself exactly when the browser reads the field back unchanged. *)
Theorem reset_clears (st : State) (d : Doc) (regs : list Registration) :
  no_null_slots d →
  handles_distinct (register_all regs (resetRefs (Some d) st)) →
  (populateEditorsFromDocument (Some d) (register_all regs (resetRefs (Some d) st))).2
    = Normal ∧
  ∀ mode idx r el,
    or_nil (region_array mode d) !! idx = Some (Some r) →
    pageContentRefs (register_all regs (resetRefs (Some d) st)) !! refKey mode idx
      = Some el →
    html (populateEditorsFromDocument (Some d)
            (register_all regs (resetRefs (Some d) st))).1 el
      = reserialise el (or_empty (content r)) ∧
    live (populateEditorsFromDocument (Some d)
            (register_all regs (resetRefs (Some d) st))).1 (refKey mode idx)
      = Some (reserialise el (or_empty (content r))) ∧
    (html (populateEditorsFromDocument (Some d)
             (register_all regs (resetRefs (Some d) st))).1 el
       = or_empty (content r)
     ↔ reserialise el (or_empty (content r)) = or_empty (content r)).
Proof.
  intros [Hp Hs] Hinj.
  set (st2 := register_all regs (resetRefs (Some d) st)) in *.
  assert (Hc : all_clean st2).
  { apply (all_clean_flags (resetRefs (Some d) st)); [apply register_all_flags|].
    apply resetRefs_spec. }
  unfold populateEditorsFromDocument, forEach.
  destruct (forEach_populate_clean MPage _ st2 0 Hc Hinj Hp) as (Hn1 & Hset1 & Hframe1).
  pose proof (forEach_from_clean_only MPage (or_nil (pages d)) st2 0) as (Hr1 & Hf1 & _).
  destruct (forEach_from (populate_region MPage) st2 0 (or_nil (pages d)))
    as [st3 c3] eqn:E3.
  simpl in *. subst c3.
  assert (Hc3 : all_clean st3) by (by apply (all_clean_flags st2)).
  assert (Hinj3 : handles_distinct st3).
  { intros k1 k2 el. rewrite Hr1. apply Hinj. }
  destruct (forEach_populate_clean MSection _ st3 0 Hc3 Hinj3 Hs) as (Hn2 & Hset2 & Hframe2).
  pose proof (forEach_from_clean_only MSection (or_nil (sections d)) st3 0) as (Hr2 & _ & _).
  split; [done|].
  assert (Hhtml : ∀ mode idx r el,
    or_nil (region_array mode d) !! idx = Some (Some r) →
    pageContentRefs st2 !! refKey mode idx = Some el →
    html (forEach_from (populate_region MSection) st3 0 (or_nil (sections d))).1 el
      = reserialise el (or_empty (content r))).
  { intros [|] idx r el Hr Hel; simpl in Hr.
    - rewrite Hframe2; [by apply (Hset1 idx r el)|].
      intros j _. rewrite Hr1. intros Hj.
      by destruct (refKey_inj _ _ _ _ (Hinj _ _ _ Hj Hel)).
    - apply (Hset2 idx r el); [done|]. by rewrite Hr1. }
  intros mode idx r el Hr Hel.
  pose proof (Hhtml mode idx r el Hr Hel) as Hw.
  split; [exact Hw|]. split.
  - unfold live. rewrite Hr2, Hr1, Hel. simpl. by rewrite Hw.
  - by rewrite Hw.
Qed.

(** ** Saving a region *)

Lemma runTimer_clean_only st : writes_clean_only st (runTimer st).
Proof.
  unfold runTimer. destruct (timers st) as [|doc rest]; [apply writes_clean_only_refl|].
  apply (populate_clean_only (Some doc) (set_timers rest st)).
Qed.

Lemma iter_runTimer_clean_only n st : writes_clean_only st (Nat.iter n runTimer st).
Proof.
  induction n as [|n IH]; simpl; [apply writes_clean_only_refl|].
  eapply writes_clean_only_trans; [exact IH|apply runTimer_clean_only].
Qed.

Lemma fetchDocument_settle_resets payload st :
  all_clean (fetchDocument_settle (Resolved payload) st) ∧
  pageContentRefs (fetchDocument_settle (Resolved payload) st) = ∅.
Proof.
  unfold fetchDocument_settle.
  set (nd := normalizeDocument payload).
  destruct (resetRefs_spec (Some nd) (setDocumentData (Some nd) st)) as (Hc & Hr & _).
  split; [|exact Hr]. intros k. apply (Hc k).
Qed.

(** C2, amended. When the save of a region succeeds its flag is set,
    and the repopulations that follow (the one the save queued, any
    queued earlier, any later call with any document) leave its live
    markup as it was; a completed fetch is different: it clears every
    flag and empties the registry. *)
Theorem post_save_lock (st : State) (mode : Mode) (index : nat) (item : Region)
    (document : option Doc) (el : elem) (n : nat) (docs : list (option Doc)) :
  handles_distinct st →
  pageContentRefs st !! refKey mode index = Some el →
  isDirty (handleSave_settle mode index item (Resolved document) st) (refKey mode index)
    = true ∧
  live (repopulate docs
          (Nat.iter n runTimer (handleSave_settle mode index item (Resolved document) st)))
       (refKey mode index)
    = live st (refKey mode index) ∧
  (∀ st' payload,
     all_clean (fetchDocument_settle (Resolved payload) st') ∧
     pageContentRefs (fetchDocument_settle (Resolved payload) st') = ∅).
Proof.
  intros Hinj Hel.
  set (st1 := handleSave_settle mode index item (Resolved document) st).
  assert (Hd : isDirty st1 (refKey mode index) = true).
  { unfold isDirty, st1; simpl. by rewrite lookup_insert_eq. }
  split; [exact Hd|]. split; [|intros; apply fetchDocument_settle_resets].
  assert (Hinj1 : handles_distinct st1) by exact Hinj.
  assert (Hel1 : pageContentRefs st1 !! refKey mode index = Some el) by exact Hel.
  assert (Hw : writes_clean_only st1 (repopulate docs (Nat.iter n runTimer st1))).
  { eapply writes_clean_only_trans;
      [apply iter_runTimer_clean_only|apply repopulate_clean_only]. }
  destruct (clean_only_keeps_dirty _ _ _ _ Hw Hinj1 Hel1 Hd) as (Hl & _ & _).
  rewrite Hl. reflexivity.
Qed.

(** C7. When the save request is rejected, the continuation of
    [handleSave] changes nothing but the notice: the document, every
    flag, the registry, the markup of every element and the queued
    timers are those of the moment the rejection arrives, and the notice
    is the error "Failed to save ...".  The same holds for the whole
    handler run against a server that rejects. *)
Theorem save_failure_atomic (st : State) (mode : Mode) (index : nat) (item : Region)
    (detail : jsval) :
  documentData (handleSave_settle mode index item (Rejected detail) st) = documentData st ∧
  localEditedRef (handleSave_settle mode index item (Rejected detail) st)
    = localEditedRef st ∧
  (∀ k, isDirty (handleSave_settle mode index item (Rejected detail) st) k = isDirty st k) ∧
  pageContentRefs (handleSave_settle mode index item (Rejected detail) st)
    = pageContentRefs st ∧
  innerHTML (handleSave_settle mode index item (Rejected detail) st) = innerHTML st ∧
  timers (handleSave_settle mode index item (Rejected detail) st) = timers st ∧
  loading (handleSave_settle mode index item (Rejected detail) st) = loading st ∧
  snack (handleSave_settle mode index item (Rejected detail) st)
    = mkSnack true ("Failed to save " +:+ mode_str mode) SevError ∧
  documentData (handleSave mode index (λ _, Rejected detail) st) = documentData st ∧
  localEditedRef (handleSave mode index (λ _, Rejected detail) st) = localEditedRef st ∧
  innerHTML (handleSave mode index (λ _, Rejected detail) st) = innerHTML st.
Proof.
  repeat (split; [reflexivity|]).
  unfold handleSave. by destruct (handleSave_start mode index st).
Qed.

(** ** Search *)

Lemma startsWith_spec q : ∀ s, startsWith s q = true ↔ ∃ suf, s = q +:+ suf.
Proof.
  induction q as [|b q IH]; intros s.
  - destruct s; simpl; split; eauto.
  - destruct s as [|a s]; simpl.
    + split; [done|]. by intros [suf ?].
    + rewrite andb_true_iff, bool_decide_eq_true, IH. split.
      * intros [-> [suf ->]]. by exists suf.
      * intros [suf [= -> ->]]. eauto.
Qed.

Lemma includes_nil q : includes "" q = startsWith "" q.
Proof. simpl. apply orb_false_r. Qed.

Lemma includes_cons a s q :
  includes (String a s) q = startsWith (String a s) q || includes s q.
Proof. reflexivity. Qed.

Lemma includes_spec q : ∀ s, includes s q = true ↔ ∃ pre suf, s = pre +:+ q +:+ suf.
Proof.
  induction s as [|a s IH].
  - rewrite includes_nil, startsWith_spec. split.
    + intros [suf ->]. by exists "", suf.
    + intros ([|? ?] & suf & H); [by exists suf|done].
  - rewrite includes_cons, orb_true_iff, startsWith_spec, IH. split.
    + intros [[suf ->]|(pre & suf & ->)]; [by exists "", suf|by exists (String a pre), suf].
    + intros ([|c pre] & suf & H); simpl in H; [left; by exists suf|].
      injection H as -> ->. right. by exists pre, suf.
Qed.

Lemma toLowerCase_app a b : toLowerCase (a +:+ b) = toLowerCase a +:+ toLowerCase b.
Proof. induction a as [|c a IH]; simpl; [done|by rewrite IH]. Qed.

Lemma toLowerCase_app_inv a : ∀ s b,
  toLowerCase s = a +:+ b →
  ∃ a' b', s = a' +:+ b' ∧ toLowerCase a' = a ∧ toLowerCase b' = b.
Proof.
  induction a as [|c a IH]; intros s b H.
  - by exists "", s.
  - destruct s as [|c' s]; simpl in H; [done|].
    injection H as Hc H. destruct (IH _ _ H) as (a' & b' & -> & Ha & Hb).
    exists (String c' a'), b'. simpl. by rewrite Hc, Ha.
Qed.

(** The test of [handleSearch] is case-insensitive containment. *)
Lemma includes_lower_spec text query :
  includes (toLowerCase text) (toLowerCase query) = true ↔
  ∃ pre w suf, text = pre +:+ w +:+ suf ∧ toLowerCase w = toLowerCase query.
Proof.
  rewrite includes_spec. split.
  - intros (pre & suf & H).
    destruct (toLowerCase_app_inv _ _ _ H) as (pre' & rest & -> & _ & Hrest).
    destruct (toLowerCase_app_inv _ _ _ Hrest) as (w & suf' & -> & Hw & _).
    by exists pre', w, suf'.
  - intros (pre & w & suf & -> & Hw).
    exists (toLowerCase pre), (toLowerCase suf).
    by rewrite !toLowerCase_app, Hw.
Qed.

Lemma item_matches_spec query it :
  item_content it ≠ JUndefined →
  ∃ b, item_matches (toLowerCase query) it = Some b ∧
       (b = true ↔ region_matches query it).
Proof.
  intros Hc. unfold item_matches, region_matches.
  destruct (JSON_stringify (item_content it)) as [text|] eqn:Ht.
  - eexists; split; [reflexivity|]. rewrite includes_lower_spec. split.
    + intros (pre & w & suf & ? & ?). by exists text, pre, w, suf.
    + intros (text' & pre & w & suf & [= <-] & ? & ?). by exists pre, w, suf.
  - by destruct (item_content it).
Qed.

Lemma findIndex_from_spec {A} (p : A → option bool) arr : ∀ idx0,
  Forall (λ x, is_Some (p x)) arr →
  (∃ j x, findIndex_from p idx0 arr = FoundAt (idx0 + j) ∧
          arr !! j = Some x ∧ p x = Some true ∧
          ∀ j' y, j' < j → arr !! j' = Some y → p y = Some false) ∨
  (findIndex_from p idx0 arr = NotPresent ∧ Forall (λ x, p x = Some false) arr).
Proof.
  induction arr as [|x rest IH]; intros idx0 Hall; simpl.
  - right. by split.
  - apply Forall_cons in Hall as [[b Hb] Hall]. rewrite Hb. destruct b.
    + left. exists 0, x. rewrite Nat.add_0_r. repeat split; [done|]. intros; lia.
    + destruct (IH (S idx0) Hall) as [(j & y & Hf & Hj & Hp & Hlt)|[Hf Hn]].
      * left. exists (S j), y. replace (idx0 + S j) with (S idx0 + j) by lia.
        repeat split; try done.
        intros [|j'] z Hj' Hz; simpl in Hz; [congruence|]. apply (Hlt j'); [lia|done].
      * right. split; [done|]. by constructor.
Qed.

(** C4, amended. For a non-empty query and a loaded document whose
    regions all have content, [handleSearch] scans the pages in array
    order and then the sections in array order; a region matches exactly
    when its serialised content contains the query ignoring case; the
    first match in that order is located, under the key of its own
    array and position; and the "Not found" notice is raised exactly
    when no region matches. *)
Theorem search_first_match (st : State) (d : Doc) :
  search st ≠ "" →
  documentData st = Some d →
  all_have_content d →
  (∃ idx key target it,
     handleSearch st = SearchFound idx key target ∧
     allItems d !! idx = Some it ∧
     region_matches (search st) it ∧
     (∀ j y, j < idx → allItems d !! j = Some y → ¬ region_matches (search st) y) ∧
     (idx < length (or_nil (pages d)) ∧
        or_nil (pages d) !! idx = Some it ∧ key = refKey MPage idx
      ∨ (length (or_nil (pages d)) ≤ idx)%nat ∧
        or_nil (sections d) !! (idx - length (or_nil (pages d))) = Some it ∧
        key = refKey MSection (idx - length (or_nil (pages d)))) ∧
     (∀ el, target = Some el → pageContentRefs st !! key = Some el))
  ∨ (handleSearch st = SearchNotFound (setSnack not_found st) ∧
     ∀ it, it ∈ allItems d → ¬ region_matches (search st) it).
Proof.
  intros Hq Hd Hall. unfold all_have_content in Hall.
  assert (Hp : Forall (λ x, is_Some (item_matches (toLowerCase (search st)) x))
                 (allItems d)).
  { eapply Forall_impl; [exact Hall|]. intros it Hc.
    destruct (item_matches_spec (search st) it Hc) as (b & -> & _). eauto. }
  assert (Hiff : ∀ it b, it ∈ allItems d →
            item_matches (toLowerCase (search st)) it = Some b →
            (b = true ↔ region_matches (search st) it)).
  { intros it b Hin Hb. rewrite Forall_forall in Hall.
    destruct (item_matches_spec (search st) it (Hall it Hin)) as (b' & Hb' & Hiff).
    congruence. }
  assert (Hs : handleSearch st =
    match findIndex (item_matches (toLowerCase (search st))) (allItems d) with
    | FindThrown => SearchThrown
    | NotPresent => SearchNotFound (setSnack not_found st)
    | FoundAt idx =>
        let npages := length (or_nil (pages d)) in
        let key := if decide (idx < npages) then refKey MPage idx
                   else refKey MSection (idx - npages) in
        SearchFound idx key
          match pageContentRefs st !! key, viewerScrollRef st with
          | Some el, Some _ => Some el
          | _, _ => None
          end
    end).
  { unfold handleSearch. rewrite Hd. by destruct (search st). }
  rewrite Hs. unfold findIndex.
  destruct (findIndex_from_spec _ _ 0 Hp) as [(j & x & -> & Hj & Hx & Hlt)|[-> Hn]].
  - left. simpl. eexists j, _, _, x. split; [reflexivity|]. split; [done|].
    split. { apply (Hiff x true); [by eapply list_elem_of_lookup_2|done|done]. }
    split.
    { intros j' y Hj' Hy Hm.
      apply (Hiff y false) in Hm; [done|by eapply list_elem_of_lookup_2|by eapply Hlt]. }
    split.
    + unfold allItems in Hj. destruct (decide (j < length (or_nil (pages d)))) as [Hl|Hl].
      * left. by rewrite lookup_app_l in Hj.
      * right. rewrite lookup_app_r in Hj by lia. split; [lia|done].
    + intros el. destruct (pageContentRefs st !! _) as [e|]; [|done].
      destruct (viewerScrollRef st); [|done]. by intros [= ->].
  - right. split; [done|]. intros it Hin Hm. rewrite Forall_forall in Hn.
    apply (Hiff it false) in Hm; [done|done|by apply Hn].
Qed.

(** ** Assembly *)

Lemma append_assoc (a b c : string) : (a +:+ b) +:+ c = a +:+ (b +:+ c).
Proof.
  induction a as [|x a IH]; [reflexivity|].
  change (String x ((a +:+ b) +:+ c) = String x (a +:+ (b +:+ c))). by rewrite IH.
Qed.

Lemma join_app xs ys : join (xs ++ ys) = join xs +:+ join ys.
Proof.
  induction xs as [|x xs IH]; simpl; [done|].
  by rewrite IH, append_assoc.
Qed.

Lemma region_html_lookup mode st arr i :
  i < length arr →
  region_html mode st arr !! i = Some (default "" (live st (refKey mode i))).
Proof.
  intros Hi. unfold region_html, live. rewrite list_lookup_imap.
  destruct (lookup_lt_is_Some_2 arr i Hi) as [x ->]. simpl.
  by destruct (pageContentRefs st !! refKey mode i).
Qed.

Lemma region_html_ext mode st st' arr arr' :
  pageContentRefs st' = pageContentRefs st →
  innerHTML st' = innerHTML st →
  length arr' = length arr →
  region_html mode st' arr' = region_html mode st arr.
Proof.
  intros Hr Hh Hl. apply list_eq. intros i.
  destruct (decide (i < length arr)) as [Hi|Hi].
  - rewrite !region_html_lookup by lia. unfold live, html. by rewrite Hr, Hh.
  - rewrite !lookup_ge_None_2; [done| |]; unfold region_html; rewrite length_imap; lia.
Qed.

Lemma ref_writes_ext mode idx item e st st' :
  localEditedRef st' = localEditedRef st →
  innerHTML st' !! e = innerHTML st !! e →
  ref_writes mode idx item e st' = ref_writes mode idx item e st.
Proof. intros Hf Hh. unfold ref_writes, isDirty, html. by rewrite Hf, Hh. Qed.

Lemma register_comm r1 r2 st :
  reg_key r1 ≠ reg_key r2 →
  reg_elem r1 ≠ reg_elem r2 →
  register (register st r1) r2 = register (register st r2) r1.
Proof.
  destruct r1 as [[[m1 i1] it1] [e1|]], r2 as [[[m2 i2] it2] [e2|]];
    unfold register, reg_key, reg_elem; intros Hk He; try reflexivity.
  assert (e1 ≠ e2) as Hne by congruence.
  assert (e2 ≠ e1) as Hne' by congruence.
  rewrite !refCallback_state.
  destruct (ref_writes m1 i1 it1 e1 st) eqn:W1, (ref_writes m2 i2 it2 e2 st) eqn:W2;
    rewrite (ref_writes_ext m2 i2 it2 e2 st), (ref_writes_ext m1 i1 it1 e1 st);
    simpl; rewrite ?lookup_insert_ne by done; try done;
    rewrite W1, W2; f_equal; by apply insert_insert_ne.
Qed.

Lemma register_all_perm regs regs' :
  regs ≡ₚ regs' →
  NoDup (reg_key <$> regs) → NoDup (reg_elem <$> regs) →
  ∀ st, register_all regs st = register_all regs' st.
Proof.
  unfold register_all.
  induction 1 as [|x l l' Hp IH|x y l|l1 l2 l3 Hp1 IH1 Hp2 IH2]; intros Hk He st.
  - done.
  - simpl. rewrite !fmap_cons in *. apply NoDup_cons in Hk as [_ Hk].
    apply NoDup_cons in He as [_ He]. by apply IH.
  - simpl. rewrite !fmap_cons in *.
    apply NoDup_cons in Hk as [Hk _]. apply NoDup_cons in He as [He _].
    rewrite (register_comm y x); [done| |]; intros Heq; [apply Hk|apply He];
      rewrite Heq; left.
  - rewrite IH1 by done. apply IH2.
    + by rewrite <- Hp1.
    + by rewrite <- Hp1.
Qed.

(** C5. The body of the preview and of the download is the markup of
    the pages, in array order, followed by that of the sections, in
    array order; each entry is what the region's registered element
    holds at that moment (the empty text without a handle), so it does
    not depend on the content stored in the document, nor on the order
    in which the handles were registered. *)
Theorem assembly_order (st : State) :
  preview_joined st = join (preview_pageHtml st) +:+ join (preview_sectionHtml st) ∧
  download_joined st = join (download_pageHtml st) +:+ join (download_sectionHtml st) ∧
  download_joined st = preview_joined st ∧
  (handleOpenPreview st).2 = styled (fontFamily st) (fontSize st) (preview_joined st) ∧
  (∀ rid, htmlContent (handleDownload_start rid st).2
          = styled (fontFamily st) (fontSize st) (download_joined st)) ∧
  length (preview_pageHtml st) = length (doc_pages st) ∧
  length (preview_sectionHtml st) = length (doc_sections st) ∧
  (∀ mode i, i < length (doc_regions mode st) →
     preview_regionHtml mode st !! i = Some (default "" (live st (refKey mode i))) ∧
     download_regionHtml mode st !! i = Some (default "" (live st (refKey mode i)))) ∧
  (∀ st', pageContentRefs st' = pageContentRefs st →
          innerHTML st' = innerHTML st →
          length (doc_pages st') = length (doc_pages st) →
          length (doc_sections st') = length (doc_sections st) →
          preview_joined st' = preview_joined st) ∧
  (∀ regs regs', regs ≡ₚ regs' →
          NoDup (reg_key <$> regs) → NoDup (reg_elem <$> regs) →
          preview_joined (register_all regs st) = preview_joined (register_all regs' st)).
Proof.
  split; [apply join_app|]. split; [apply join_app|]. split; [reflexivity|].
  split; [reflexivity|]. split; [reflexivity|].
  split; [apply length_imap|]. split; [apply length_imap|].
  split.
  { intros [|] i Hi; split; by apply region_html_lookup. }
  split.
  - intros st' Hr Hh Hp Hs. unfold preview_joined, preview_pageHtml, preview_sectionHtml.
    by rewrite (region_html_ext MPage st st' _ _ Hr Hh Hp),
               (region_html_ext MSection st st' _ _ Hr Hh Hs).
  - intros regs regs' Hperm Hk He. by rewrite (register_all_perm regs regs' Hperm Hk He).
Qed.

(** ** Regions without a handle *)

(** C10. For a key without a registered handle, the preview and the
    download both put the empty text at the region's place, and
    [handleSave] returns before its request: nothing is sent and the
    state is the one it started from. *)
Theorem unregistered_region_is_harmless (st : State) (mode : Mode) (index : nat) :
  arrays_present st →
  pageContentRefs st !! refKey mode index = None →
  (index < length (doc_regions mode st) →
     preview_regionHtml mode st !! index = Some "" ∧
     download_regionHtml mode st !! index = Some "") ∧
  handleSave_start mode index st = SaveReturned ∧
  (∀ server, handleSave mode index server st = st).
Proof.
  intros Harr Hnone. split.
  - intros Hi.
    destruct mode;
      unfold preview_regionHtml, download_regionHtml, preview_pageHtml, download_pageHtml,
        preview_sectionHtml, download_sectionHtml, doc_regions in *;
      split; rewrite region_html_lookup by done; unfold live; by rewrite Hnone.
  - assert (Hs : handleSave_start mode index st = SaveReturned).
    { unfold handleSave_start.
      destruct (documentData st) as [d|] eqn:Hd; [|done].
      destruct (Harr d) as [[ps Hps] [ss Hss]]; [by rewrite Hd|].
      destruct mode; simpl; rewrite ?Hps, ?Hss, Hnone; done. }
    split; [done|]. intros server. unfold handleSave. by rewrite Hs.
Qed.

(** The shape [handleSave] relies on is kept by every handler that
    stores a document. *)
Lemma arrays_present_normalized payload st :
  arrays_present (setDocumentData (Some (normalizeDocument payload)) st).
Proof.
  intros d [= <-]. destruct payload; simpl; split; eexists; reflexivity.
Qed.

Lemma arrays_present_onInput mode idx st :
  arrays_present st → arrays_present (onInput mode idx st).
Proof.
  unfold onInput. destruct (pageContentRefs st !! refKey mode idx); [|done].
  intros Harr d. simpl. destruct (documentData st) as [d0|] eqn:Hd0; [|done].
  destruct (Harr d0) as [Hp Hs]; [by rewrite Hd0|].
  destruct mode; simpl; intros [= <-]; simpl; split; done || (eexists; reflexivity).
Qed.

(** ** Whole-document regeneration *)

Lemma run_clicks n : ∀ s,
  pending_regenerations (run s (replicate n ClickRegenerate))
    = (pending_regenerations s ++ replicate n (regenerate_body (page s)))%list ∧
  documentData (page (run s (replicate n ClickRegenerate))) = documentData (page s) ∧
  (0 < n → loading (page (run s (replicate n ClickRegenerate))) = true).
Proof.
  unfold run.
  induction n as [|n IH]; intros s; simpl.
  - rewrite app_nil_r. split; [done|]. split; [done|]. lia.
  - destruct (IH (mkSession (handleRegenerateDocument_start (page s))
                    (pending_regenerations s ++ [regenerate_body (page s)])))
      as (H1 & H2 & H3).
    split; [|split].
    + rewrite H1. simpl. by rewrite <- app_assoc.
    + by rewrite H2.
    + intros _. destruct n; [reflexivity|]. apply H3. lia.
Qed.

(** C9 does not hold of the code: the Regenerate Entire Document
    button is never disabled and its handler has no guard, so [n] clicks
    in a row leave [n] regenerations in flight at once, each started
    while [loading] was already set (the Preview button, which does
    carry [disabled={loading}], is disabled meanwhile). *)
Theorem regenerate_overlaps (st : State) (n : nat) :
  length (pending_regenerations (run (initial st) (replicate n ClickRegenerate))) = n ∧
  regenerateButton_disabled (page (run (initial st) (replicate n ClickRegenerate)))
    = false ∧
  previewButton_disabled (page (run (initial st) (replicate (S n) ClickRegenerate)))
    = true.
Proof.
  destruct (run_clicks n (initial st)) as (H1 & _ & _).
  destruct (run_clicks (S n) (initial st)) as (_ & _ & H3).
  split; [|split].
  - rewrite H1. simpl. by rewrite length_replicate.
  - reflexivity.
  - apply H3. lia.
Qed.

(** * Further properties of the viewer *)

(** ** What repopulation writes *)

Lemma populate_region_only_html mode st idx pg :
  (populate_region mode st idx pg).1
    = set_innerHTML (innerHTML (populate_region mode st idx pg).1) st.
Proof.
  unfold populate_region.
  destruct (pageContentRefs st !! refKey mode idx); [|by destruct st].
  destruct (isDirty st (refKey mode idx)); [by destruct st|].
  destruct pg; by destruct st.
Qed.

Lemma forEach_populate_only_html mode arr : ∀ st idx,
  (forEach_from (populate_region mode) st idx arr).1
    = set_innerHTML (innerHTML (forEach_from (populate_region mode) st idx arr).1) st.
Proof.
  induction arr as [|x rest IH]; intros st idx; simpl; [by destruct st|].
  pose proof (populate_region_only_html mode st idx x) as H1.
  destruct (populate_region mode st idx x) as [st' []]; simpl in *; [|done].
  rewrite (IH st' (S idx)) at 1. rewrite H1. reflexivity.
Qed.

Lemma populate_only_html doc st :
  (populateEditorsFromDocument doc st).1
    = set_innerHTML (innerHTML (populateEditorsFromDocument doc st).1) st.
Proof.
  destruct doc as [d|]; simpl; [|by destruct st]. unfold forEach.
  pose proof (forEach_populate_only_html MPage (or_nil (pages d)) st 0) as H1.
  destruct (forEach_from (populate_region MPage) st 0 (or_nil (pages d))) as [st1 []];
    simpl in *; [|done].
  rewrite (forEach_populate_only_html MSection (or_nil (sections d)) st1 0) at 1.
  rewrite H1. reflexivity.
Qed.

(** A loop of [populateEditorsFromDocument] leaves alone every element
    that no key of its kind holds. *)
Lemma forEach_populate_frame mode arr el : ∀ st idx0,
  (∀ j, pageContentRefs st !! refKey mode j ≠ Some el) →
  html (forEach_from (populate_region mode) st idx0 arr).1 el = html st el.
Proof.
  induction arr as [|x rest IH]; intros st idx0 Hno; simpl; [done|].
  pose proof (populate_region_clean_only mode st idx0 x) as (Hr & _ & _).
  assert (Hstep : html (populate_region mode st idx0 x).1 el = html st el).
  { unfold populate_region.
    destruct (pageContentRefs st !! refKey mode idx0) as [e|] eqn:He; [|done].
    destruct (isDirty st (refKey mode idx0)); [done|]. destruct x; [|done].
    simpl. rewrite html_write_html, decide_False; [done|].
    intros ->. by apply (Hno idx0). }
  destruct (populate_region mode st idx0 x) as [st' []]; simpl in *; [|done].
  rewrite IH; [done|]. intros j. rewrite Hr. apply Hno.
Qed.

Lemma forEach_populate_spec mode arr : ∀ st idx0,
  handles_distinct st → Forall is_Some arr →
  (forEach_from (populate_region mode) st idx0 arr).2 = Normal ∧
  (∀ j r el, arr !! j = Some (Some r) →
     pageContentRefs st !! refKey mode (idx0 + j) = Some el →
     html (forEach_from (populate_region mode) st idx0 arr).1 el
       = if isDirty st (refKey mode (idx0 + j)) then html st el
         else reserialise el (or_empty (content r))) ∧
  (∀ el, (∀ j, j < length arr → pageContentRefs st !! refKey mode (idx0 + j) ≠ Some el) →
     html (forEach_from (populate_region mode) st idx0 arr).1 el = html st el).
Proof.
  induction arr as [|x rest IH]; intros st idx0 Hinj Hall.
  { simpl. split; [done|]. split; [|done]. intros j r el Hj. by rewrite lookup_nil in Hj. }
  apply Forall_cons in Hall as [[r0 ->] Hall]. simpl.
  pose proof (populate_region_clean_only mode st idx0 (Some r0)) as (Hrefs & Hflags & _).
  assert (Hstep : ∃ st', populate_region mode st idx0 (Some r0) = (st', Normal) ∧
    ∀ el, html st' el =
      if decide (pageContentRefs st !! refKey mode idx0 = Some el)
      then (if isDirty st (refKey mode idx0) then html st el
            else reserialise el (or_empty (content r0)))
      else html st el).
  { unfold populate_region.
    destruct (pageContentRefs st !! refKey mode idx0) as [e|] eqn:He.
    - destruct (isDirty st (refKey mode idx0)) eqn:Hd.
      + eexists; split; [reflexivity|]. intros el. by destruct (decide _).
      + eexists; split; [reflexivity|]. intros el. rewrite html_write_html.
        destruct (decide (e = el)) as [->|Hne].
        * by rewrite decide_True.
        * rewrite decide_False; [done|congruence].
    - eexists; split; [reflexivity|]. intros el. by rewrite decide_False. }
  destruct Hstep as (st' & Hst' & Hhtml). rewrite Hst' in *. simpl in *.
  assert (Hinj' : handles_distinct st').
  { intros k1 k2 el. rewrite Hrefs. apply Hinj. }
  assert (Hdirty : ∀ k, isDirty st' k = isDirty st k).
  { intros k. unfold isDirty. by rewrite Hflags. }
  destruct (IH st' (S idx0) Hinj' Hall) as (Hn & Hset & Hframe).
  split; [done|]. split.
  - intros [|j] r el Hj Hel.
    + simpl in Hj. injection Hj as ->. rewrite Nat.add_0_r in *.
      rewrite Hframe.
      * rewrite Hhtml. by rewrite decide_True.
      * intros j Hlt. rewrite Hrefs. intros Hj.
        destruct (refKey_inj _ _ _ _ (Hinj _ _ _ Hj Hel)) as [_ ?]. lia.
    + simpl in Hj. replace (idx0 + S j) with (S idx0 + j) in * by lia.
      rewrite (Hset j r el Hj); [|by rewrite Hrefs]. rewrite Hdirty.
      destruct (isDirty st (refKey mode (S idx0 + j))); [|done].
      rewrite Hhtml. rewrite decide_False; [done|].
      intros H0. destruct (refKey_inj _ _ _ _ (Hinj _ _ _ H0 Hel)) as [_ ?]. lia.
  - intros el Hno. rewrite Hframe.
    + rewrite Hhtml. rewrite decide_False; [done|].
      specialize (Hno 0). rewrite Nat.add_0_r in Hno. apply Hno. simpl. lia.
    + intros j Hlt. rewrite Hrefs.
      replace (S idx0 + j) with (idx0 + S j) by lia. apply Hno. simpl. lia.
Qed.

Lemma populate_html_spec (st : State) (d : Doc) mode idx r el :
  handles_distinct st →
  no_null_slots d →
  or_nil (region_array mode d) !! idx = Some (Some r) →
  pageContentRefs st !! refKey mode idx = Some el →
  html (populateEditorsFromDocument (Some d) st).1 el
    = if isDirty st (refKey mode idx) then html st el
      else reserialise el (or_empty (content r)).
Proof.
  intros Hinj [Hp Hs] Hr Hel.
  unfold populateEditorsFromDocument, forEach.
  destruct (forEach_populate_spec MPage _ st 0 Hinj Hp) as (Hn1 & Hset1 & Hframe1).
  pose proof (forEach_from_clean_only MPage (or_nil (pages d)) st 0) as (Hr1 & Hf1 & _).
  destruct (forEach_from (populate_region MPage) st 0 (or_nil (pages d))) as [st1 c1].
  simpl in *. subst c1.
  assert (Hinj1 : handles_distinct st1) by (intros k1 k2 e; rewrite Hr1; apply Hinj).
  destruct (forEach_populate_spec MSection _ st1 0 Hinj1 Hs) as (Hn2 & Hset2 & Hframe2).
  simpl in *.
  destruct mode; simpl in Hr.
  - rewrite Hframe2; [by apply (Hset1 idx r el)|].
    intros j _. rewrite Hr1. intros Hj.
    by destruct (refKey_inj _ _ _ _ (Hinj _ _ _ Hj Hel)).
  - rewrite (Hset2 idx r el Hr); [|by rewrite Hr1].
    unfold isDirty. rewrite Hf1.
    destruct (default false (localEditedRef st !! refKey MSection idx)); [|done].
    apply Hframe1. intros j _ Hj.
    by destruct (refKey_inj _ _ _ _ (Hinj _ _ _ Hj Hel)).
Qed.

(** X1. On a document whose slots are all objects, repopulation
    completes and changes nothing but element markup: a registered
    region is assigned the document's content if its flag is clean (it
    then reads back as the browser serialises that content) and keeps
    its markup if the flag is set, and an element that no region key of
    the document holds is untouched. *)
Theorem populate_writes_exactly (st : State) (d : Doc) :
  handles_distinct st →
  no_null_slots d →
  (populateEditorsFromDocument (Some d) st).2 = Normal ∧
  (populateEditorsFromDocument (Some d) st).1
    = set_innerHTML (innerHTML (populateEditorsFromDocument (Some d) st).1) st ∧
  (∀ mode idx r el,
     or_nil (region_array mode d) !! idx = Some (Some r) →
     pageContentRefs st !! refKey mode idx = Some el →
     html (populateEditorsFromDocument (Some d) st).1 el
       = if isDirty st (refKey mode idx) then html st el
         else reserialise el (or_empty (content r))) ∧
  (∀ el,
     (∀ mode idx, idx < length (or_nil (region_array mode d)) →
                  pageContentRefs st !! refKey mode idx ≠ Some el) →
     html (populateEditorsFromDocument (Some d) st).1 el = html st el).
Proof.
  intros Hinj Hnn.
  split; [|split; [apply populate_only_html|split]].
  - destruct Hnn as [Hp Hs]. unfold populateEditorsFromDocument, forEach.
    destruct (forEach_populate_spec MPage _ st 0 Hinj Hp) as (Hn1 & _ & _).
    pose proof (forEach_from_clean_only MPage (or_nil (pages d)) st 0) as (Hr1 & _ & _).
    destruct (forEach_from (populate_region MPage) st 0 (or_nil (pages d))) as [st1 c1].
    simpl in *. subst c1.
    assert (Hinj1 : handles_distinct st1) by (intros k1 k2 el; rewrite Hr1; apply Hinj).
    by destruct (forEach_populate_spec MSection _ st1 0 Hinj1 Hs) as (Hn2 & _ & _).
  - intros mode idx r el Hr Hel. by apply populate_html_spec.
  - intros el Hno. destruct Hnn as [Hp Hs]. unfold populateEditorsFromDocument, forEach.
    destruct (forEach_populate_spec MPage _ st 0 Hinj Hp) as (Hn1 & _ & Hframe1).
    pose proof (forEach_from_clean_only MPage (or_nil (pages d)) st 0) as (Hr1 & _ & _).
    destruct (forEach_from (populate_region MPage) st 0 (or_nil (pages d))) as [st1 c1].
    simpl in *. subst c1.
    assert (Hinj1 : handles_distinct st1) by (intros k1 k2 e; rewrite Hr1; apply Hinj).
    destruct (forEach_populate_spec MSection _ st1 0 Hinj1 Hs) as (Hn2 & _ & Hframe2).
    simpl in *. rewrite Hframe2.
    + apply Hframe1. intros j Hj. by apply (Hno MPage).
    + intros j Hj. rewrite Hr1. by apply (Hno MSection).
Qed.

Lemma forEach_populate_throws mode arr : ∀ st idx0 j el,
  arr !! j = Some None →
  pageContentRefs st !! refKey mode (idx0 + j) = Some el →
  isDirty st (refKey mode (idx0 + j)) = false →
  (forEach_from (populate_region mode) st idx0 arr).2 = Thrown.
Proof.
  induction arr as [|x rest IH]; intros st idx0 j el Hj Hel Hd; [by rewrite lookup_nil in Hj|].
  simpl. destruct j as [|j].
  - simpl in Hj. injection Hj as ->. rewrite Nat.add_0_r in *.
    unfold populate_region. by rewrite Hel, Hd.
  - pose proof (populate_region_clean_only mode st idx0 x) as (Hr & Hf & _).
    destruct (populate_region mode st idx0 x) as [st' []]; simpl in *; [|done].
    apply (IH st' (S idx0) j el Hj).
    + rewrite Hr. by replace (S idx0 + j) with (idx0 + S j) by lia.
    + unfold isDirty in *. rewrite Hf. by replace (S idx0 + j) with (idx0 + S j) by lia.
Qed.

(** X2. A [null] slot whose key has a registered, clean handle makes
    repopulation throw, whichever array holds it; when the slot is a
    page, no section is repopulated: every element that no page key
    holds keeps its markup. *)
Theorem populate_aborts_on_null (st : State) (d : Doc) (mode : Mode) (idx : nat)
    (el : elem) :
  or_nil (region_array mode d) !! idx = Some None →
  pageContentRefs st !! refKey mode idx = Some el →
  isDirty st (refKey mode idx) = false →
  (populateEditorsFromDocument (Some d) st).2 = Thrown ∧
  (mode = MPage →
   ∀ el', (∀ j, pageContentRefs st !! refKey MPage j ≠ Some el') →
          html (populateEditorsFromDocument (Some d) st).1 el' = html st el').
Proof.
  intros Hnull Hel Hd. unfold populateEditorsFromDocument, forEach.
  pose proof (forEach_from_clean_only MPage (or_nil (pages d)) st 0) as (Hr1 & Hf1 & _).
  destruct mode; simpl in Hnull.
  - pose proof (forEach_populate_throws MPage _ st 0 idx el Hnull Hel Hd) as Ht.
    pose proof (λ el' H, forEach_populate_frame MPage (or_nil (pages d)) el' st 0 H)
      as Hfr.
    destruct (forEach_from (populate_region MPage) st 0 (or_nil (pages d))) as [st1 c1].
    simpl in *. subst c1. split; [done|]. intros _ el' Hno. simpl.
    apply (Hfr el' Hno).
  - destruct (forEach_from (populate_region MPage) st 0 (or_nil (pages d))) as [st1 []];
      simpl in *; [|by split].
    split; [|done].
    apply (forEach_populate_throws MSection _ st1 0 idx el Hnull).
    + by rewrite Hr1.
    + unfold isDirty in *. by rewrite Hf1.
Qed.

(** ** Reset *)

Lemma reset_flags_lookup mode arr k : ∀ st idx0,
  documentData (forEach_from (reset_flag mode) st idx0 arr).1 = documentData st ∧
  ((∃ j, j < length arr ∧ k = refKey mode (idx0 + j)) ∧
   localEditedRef (forEach_from (reset_flag mode) st idx0 arr).1 !! k = Some false
   ∨ (∀ j, j < length arr → k ≠ refKey mode (idx0 + j)) ∧
     localEditedRef (forEach_from (reset_flag mode) st idx0 arr).1 !! k
       = localEditedRef st !! k).
Proof.
  induction arr as [|x rest IH]; intros st idx0; simpl.
  { split; [done|]. right. split; [intros; lia|done]. }
  set (st' := set_localEditedRef (<[refKey mode idx0:=false]> (localEditedRef st)) st).
  destruct (IH st' (S idx0)) as [Hdoc [((j & Hj & ->) & Hl)|[Hno Hl]]].
  - split; [done|]. left. split; [|done]. exists (S j). split; [lia|]. f_equal. lia.
  - split; [done|]. destruct (decide (k = refKey mode idx0)) as [->|Hne].
    + left. split; [exists 0; split; [lia|by rewrite Nat.add_0_r]|].
      rewrite Hl. subst st'; simpl. by rewrite lookup_insert_eq.
    + right. split.
      * intros [|j] Hj; [by rewrite Nat.add_0_r|].
        replace (idx0 + S j) with (S idx0 + j) by lia. apply Hno. lia.
      * rewrite Hl. subst st'; simpl. by rewrite lookup_insert_ne.
Qed.

(** X3. [resetRefs(doc)] leaves exactly one flag per slot of [doc], all
    clean (flags of keys the new document does not have are dropped,
    none is set), empties the handle registry, and touches neither the
    markup of any element nor the stored document. *)
Theorem resetRefs_exact (doc : option Doc) (st : State) (k : string) :
  (localEditedRef (resetRefs doc st) !! k = Some false ↔ is_region_key doc k) ∧
  (localEditedRef (resetRefs doc st) !! k = None ↔ ¬ is_region_key doc k) ∧
  pageContentRefs (resetRefs doc st) = ∅ ∧
  innerHTML (resetRefs doc st) = innerHTML st ∧
  documentData (resetRefs doc st) = documentData st.
Proof.
  assert (Hp : doc ≫= region_array MPage = doc ≫= pages) by (by destruct doc).
  assert (Hs : doc ≫= region_array MSection = doc ≫= sections) by (by destruct doc).
  destruct (resetRefs_spec doc st) as (_ & Hr & Hh).
  unfold resetRefs, forEach, is_region_key in *.
  set (st0 := set_pageContentRefs ∅ (set_localEditedRef ∅ st)) in *.
  set (st1 := (forEach_from (reset_flag MPage) st0 0 (or_nil (doc ≫= pages))).1) in *.
  destruct (reset_flags_lookup MPage (or_nil (doc ≫= pages)) k st0 0) as [D1 P].
  destruct (reset_flags_lookup MSection (or_nil (doc ≫= sections)) k st1 0) as [D2 S].
  fold st1 in D1, P.
  assert (Hcases :
    (∃ mode idx, k = refKey mode idx ∧ idx < length (or_nil (doc ≫= region_array mode))) ∧
    localEditedRef (forEach_from (reset_flag MSection) st1 0 (or_nil (doc ≫= sections))).1
      !! k = Some false
    ∨ ¬ (∃ mode idx, k = refKey mode idx ∧
                     idx < length (or_nil (doc ≫= region_array mode))) ∧
      localEditedRef (forEach_from (reset_flag MSection) st1 0 (or_nil (doc ≫= sections))).1
        !! k = None).
  { destruct S as [((j & Hj & ->) & Hl)|[HnoS Hl]].
    - left. split; [|done]. exists MSection, j. by rewrite Hs.
    - rewrite Hl. destruct P as [((j & Hj & ->) & Hl')|[HnoP Hl']].
      + left. split; [|done]. exists MPage, j. by rewrite Hp.
      + right. split; [|by rewrite Hl'].
        intros ([|] & idx & -> & Hlt).
        * rewrite Hp in Hlt. by apply (HnoP idx).
        * rewrite Hs in Hlt. by apply (HnoS idx). }
  split; [|split; [|split; [done|split; [done|by rewrite D2, D1]]]].
  - destruct Hcases as [[Hy Hl]|[Hn Hl]]; rewrite Hl; split; try done.
  - destruct Hcases as [[Hy Hl]|[Hn Hl]]; rewrite Hl; split; try done.
Qed.

(** ** Regenerating one region *)

Lemma reset_flags_others mode arr : ∀ st idx0,
  documentData (forEach_from (reset_flag mode) st idx0 arr).1 = documentData st ∧
  timers (forEach_from (reset_flag mode) st idx0 arr).1 = timers st ∧
  loading (forEach_from (reset_flag mode) st idx0 arr).1 = loading st ∧
  snack (forEach_from (reset_flag mode) st idx0 arr).1 = snack st.
Proof.
  induction arr as [|x rest IH]; intros st idx0; simpl; [done|].
  apply (IH (set_localEditedRef (<[refKey mode idx0:=false]> (localEditedRef st)) st)).
Qed.

Lemma resetRefs_documentData doc st : documentData (resetRefs doc st) = documentData st.
Proof.
  unfold resetRefs, forEach.
  destruct (reset_flags_others MSection (or_nil (doc ≫= sections))
              (forEach_from (reset_flag MPage)
                 (set_pageContentRefs ∅ (set_localEditedRef ∅ st)) 0
                 (or_nil (doc ≫= pages))).1 0) as (-> & _).
  by destruct (reset_flags_others MPage (or_nil (doc ≫= pages))
                 (set_pageContentRefs ∅ (set_localEditedRef ∅ st)) 0) as (-> & _).
Qed.

Lemma resetRefs_timers doc st : timers (resetRefs doc st) = timers st.
Proof.
  unfold resetRefs, forEach.
  destruct (reset_flags_others MSection (or_nil (doc ≫= sections))
              (forEach_from (reset_flag MPage)
                 (set_pageContentRefs ∅ (set_localEditedRef ∅ st)) 0
                 (or_nil (doc ≫= pages))).1 0) as (_ & -> & _).
  by destruct (reset_flags_others MPage (or_nil (doc ≫= pages))
                 (set_pageContentRefs ∅ (set_localEditedRef ∅ st)) 0) as (_ & -> & _).
Qed.

(** X4. Regenerating a single page or section replaces the whole
    document and resets the edit state of every region: on success the
    normalised response is stored, every flag is clean, the registry is
    empty, one repopulation is queued, the dialog is closed with its
    prompt cleared and the loading indicator is off.  On failure the
    document, the flags, the registry, the markup and the queue are
    untouched, the dialog stays as it was (open, prompt kept) and the
    indicator is off.  Without a current item nothing is sent. *)
Theorem regenerate_item_outcomes (mode : Mode) (dlg : Dialog) (st : State)
    (document : option Doc) (detail : jsval) :
  (documentData (handleRegenerate_settle mode (Resolved document) dlg st).1
     = Some (normalizeDocument document) ∧
   all_clean (handleRegenerate_settle mode (Resolved document) dlg st).1 ∧
   pageContentRefs (handleRegenerate_settle mode (Resolved document) dlg st).1 = ∅ ∧
   innerHTML (handleRegenerate_settle mode (Resolved document) dlg st).1 = innerHTML st ∧
   timers (handleRegenerate_settle mode (Resolved document) dlg st).1
     = (timers st ++ [normalizeDocument document])%list ∧
   loading (handleRegenerate_settle mode (Resolved document) dlg st).1 = false ∧
   (handleRegenerate_settle mode (Resolved document) dlg st).2 = mkDialog false None "") ∧
  (documentData (handleRegenerate_settle mode (Rejected detail) dlg st).1 = documentData st ∧
   localEditedRef (handleRegenerate_settle mode (Rejected detail) dlg st).1
     = localEditedRef st ∧
   pageContentRefs (handleRegenerate_settle mode (Rejected detail) dlg st).1
     = pageContentRefs st ∧
   innerHTML (handleRegenerate_settle mode (Rejected detail) dlg st).1 = innerHTML st ∧
   timers (handleRegenerate_settle mode (Rejected detail) dlg st).1 = timers st ∧
   loading (handleRegenerate_settle mode (Rejected detail) dlg st).1 = false ∧
   severity (snack (handleRegenerate_settle mode (Rejected detail) dlg st).1) = SevError ∧
   (handleRegenerate_settle mode (Rejected detail) dlg st).2 = dlg) ∧
  (currentItem dlg = None ↔ handleRegenerate_start dlg st = None).
Proof.
  split; [|split].
  - unfold handleRegenerate_settle. simpl.
    set (nd := normalizeDocument document).
    set (st2 := setSnack _ (setDocumentData (Some nd) st)).
    destruct (resetRefs_spec (Some nd) st2) as (Hc & Hr & Hh).
    split; [by rewrite resetRefs_documentData|].
    split; [intros k; apply (Hc k)|].
    split; [exact Hr|]. split; [exact Hh|]. split; [|done].
    by rewrite resetRefs_timers.
  - repeat split.
  - unfold handleRegenerate_start. destruct (currentItem dlg) as [[item m]|]; split; done.
Qed.

(** ** Loading a document *)

Lemma register_others reg st :
  documentData (register st reg) = documentData st ∧
  timers (register st reg) = timers st ∧
  loading (register st reg) = loading st ∧
  localEditedRef (register st reg) = localEditedRef st.
Proof.
  destruct reg as [[[mode idx] item] [e|]]; unfold register; [|done].
  by rewrite refCallback_state.
Qed.

Lemma register_all_others regs : ∀ st,
  documentData (register_all regs st) = documentData st ∧
  timers (register_all regs st) = timers st ∧
  loading (register_all regs st) = loading st.
Proof.
  unfold register_all.
  induction regs as [|reg regs IH]; intros st; simpl; [done|].
  destruct (IH (register st reg)) as (-> & -> & ->).
  by destruct (register_others reg st) as (-> & -> & -> & _).
Qed.

(** X5. A completed fetch, followed by React registering the handles
    again and by the queued repopulation, shows the fetched document:
    the normalised response is stored, the loading indicator is off,
    and every registered region reads back as the browser serialises
    the content of its slot, whatever was edited, flagged or shown
    before.  (No older repopulation is queued; the response has no
    [null] slot; handles are distinct.) *)
Theorem fetch_shows_document (st : State) (payload : option Doc)
    (regs : list Registration) :
  timers st = [] →
  no_null_slots (normalizeDocument payload) →
  handles_distinct
    (register_all regs (fetchDocument_settle (Resolved payload) (fetchDocument_start st))) →
  documentData
    (runTimer (register_all regs
       (fetchDocument_settle (Resolved payload) (fetchDocument_start st))))
    = Some (normalizeDocument payload) ∧
  loading
    (runTimer (register_all regs
       (fetchDocument_settle (Resolved payload) (fetchDocument_start st)))) = false ∧
  timers
    (runTimer (register_all regs
       (fetchDocument_settle (Resolved payload) (fetchDocument_start st)))) = [] ∧
  ∀ mode idx r el,
    or_nil (region_array mode (normalizeDocument payload)) !! idx = Some (Some r) →
    pageContentRefs
      (register_all regs (fetchDocument_settle (Resolved payload) (fetchDocument_start st)))
      !! refKey mode idx = Some el →
    html (runTimer (register_all regs
            (fetchDocument_settle (Resolved payload) (fetchDocument_start st)))) el
      = reserialise el (or_empty (content r)).
Proof.
  intros Ht Hnn Hinj.
  set (nd := normalizeDocument payload) in *.
  set (st1 := fetchDocument_settle (Resolved payload) (fetchDocument_start st)) in *.
  set (st2 := register_all regs st1) in *.
  destruct (register_all_others regs st1) as (Hd2 & Ht2 & Hl2). fold st2 in Hd2, Ht2, Hl2.
  assert (Hd1 : documentData st1 = Some nd).
  { unfold st1, fetchDocument_settle. simpl. by rewrite resetRefs_documentData. }
  assert (Ht1 : timers st1 = [nd]).
  { unfold st1, fetchDocument_settle. simpl. by rewrite resetRefs_timers; simpl; rewrite Ht. }
  assert (Hc2 : all_clean st2).
  { apply (all_clean_flags st1); [apply register_all_flags|].
    apply fetchDocument_settle_resets. }
  unfold runTimer. rewrite Ht2, Ht1.
  set (st3 := set_timers [] st2).
  assert (Hinj3 : handles_distinct st3) by exact Hinj.
  assert (Hc3 : all_clean st3) by exact Hc2.
  rewrite (populate_only_html (Some nd) st3). simpl.
  split; [by rewrite Hd2|]. split; [by rewrite Hl2|]. split; [done|].
  intros mode idx r el Hr Hel.
  destruct Hnn as [Hp Hs].
  change (html (populateEditorsFromDocument (Some nd) st3).1 el
          = reserialise el (or_empty (content r))).
  unfold populateEditorsFromDocument, forEach.
  destruct (forEach_populate_spec MPage _ st3 0 Hinj3 Hp) as (Hn1 & Hset1 & Hframe1).
  pose proof (forEach_from_clean_only MPage (or_nil (pages nd)) st3 0) as (Hr1 & Hf1 & _).
  destruct (forEach_from (populate_region MPage) st3 0 (or_nil (pages nd))) as [st4 c4].
  simpl in *. subst c4.
  assert (Hinj4 : handles_distinct st4) by (intros k1 k2 e; rewrite Hr1; apply Hinj3).
  destruct (forEach_populate_spec MSection _ st4 0 Hinj4 Hs) as (Hn2 & Hset2 & Hframe2).
  simpl in Hset2, Hframe2.
  destruct mode; simpl in Hr.
  - rewrite Hframe2.
    + rewrite (Hset1 idx r el Hr Hel). by rewrite (Hc3 (refKey MPage idx)).
    + intros j _. rewrite Hr1. intros Hj.
      by destruct (refKey_inj _ _ _ _ (Hinj3 _ _ _ Hj Hel)).
  - rewrite (Hset2 idx r el Hr); [|by rewrite Hr1].
    assert (isDirty st4 (refKey MSection idx) = false) as ->; [|done].
    unfold isDirty. rewrite Hf1. apply (Hc3 (refKey MSection idx)).
Qed.

(** ** Editing a region *)

Lemma array_set_spec arr idx v :
  length (array_set arr idx v) = max (length arr) (S idx) ∧
  array_set arr idx v !! idx = Some (Some v) ∧
  (∀ j, j < length arr → j ≠ idx → array_set arr idx v !! j = arr !! j).
Proof.
  unfold array_set, slot in *. destruct (decide (idx < length arr)) as [Hlt|Hge].
  - rewrite length_insert. split; [lia|]. split.
    + by apply list_lookup_insert_eq.
    + intros j _ Hne. by apply list_lookup_insert_ne.
  - rewrite !length_app, length_replicate. simpl. split; [lia|]. split.
    + rewrite lookup_app_r by lia. rewrite lookup_app_r; rewrite length_replicate; [|lia].
      by replace (idx - length arr - (idx - length arr)) with 0 by lia.
    + intros j Hj _. by rewrite lookup_app_l.
Qed.

Lemma userEdit_unfold mode idx markup st node :
  pageContentRefs st !! refKey mode idx = Some node →
  userEdit mode idx markup st
    = setDocumentData (onInput_update mode idx markup (documentData st))
        (set_localEditedRef (<[refKey mode idx := true]> (localEditedRef st))
           (set_markup node markup st)).
Proof.
  intros Hn. unfold userEdit, onInput. rewrite Hn. simpl. rewrite Hn.
  f_equal. f_equal. unfold html. simpl. by rewrite lookup_insert_eq.
Qed.

(** X6. Typing in a registered region sets its flag, and copies the
    element's new markup into the stored document at the region's own
    slot, keeping the slot's other fields; every other slot, the other
    array, the document's id, title and source text, every other flag,
    the registry and every other element are unchanged.  Past the end
    of the array the array grows to hold the slot. *)
Theorem userEdit_syncs_document (st : State) (mode : Mode) (idx : nat) (markup : string)
    (node : elem) (d : Doc) :
  pageContentRefs st !! refKey mode idx = Some node →
  documentData st = Some d →
  ∃ d',
    documentData (userEdit mode idx markup st) = Some d' ∧
    live (userEdit mode idx markup st) (refKey mode idx) = Some markup ∧
    isDirty (userEdit mode idx markup st) (refKey mode idx) = true ∧
    or_nil (region_array mode d') !! idx
      = Some (Some (spread_with_content (mjoin (or_nil (region_array mode d) !! idx)) markup)) ∧
    item_content (mjoin (or_nil (region_array mode d') !! idx)) = JStr markup ∧
    length (or_nil (region_array mode d'))
      = max (length (or_nil (region_array mode d))) (S idx) ∧
    (∀ j, j < length (or_nil (region_array mode d)) → j ≠ idx →
          or_nil (region_array mode d') !! j = or_nil (region_array mode d) !! j) ∧
    (∀ m, m ≠ mode → region_array m d' = region_array m d) ∧
    id d' = id d ∧ title d' = title d ∧ raw_text d' = raw_text d ∧
    (∀ k, k ≠ refKey mode idx →
          localEditedRef (userEdit mode idx markup st) !! k = localEditedRef st !! k) ∧
    pageContentRefs (userEdit mode idx markup st) = pageContentRefs st ∧
    (∀ e, e ≠ node → html (userEdit mode idx markup st) e = html st e).
Proof.
  intros Hn Hd. rewrite (userEdit_unfold _ _ _ _ _ Hn). rewrite Hd.
  destruct mode; simpl.
  - destruct (array_set_spec (or_nil (pages d)) idx
                (spread_with_content (mjoin (or_nil (pages d) !! idx)) markup))
      as (Hlen & Hat & Hother).
    eexists. split; [reflexivity|]. simpl.
    split. { unfold live, html; simpl. rewrite Hn; simpl. by rewrite lookup_insert_eq. }
    split. { unfold isDirty; simpl. by rewrite lookup_insert_eq. }
    split; [done|]. split. { rewrite Hat. simpl. by destruct (mjoin _). }
    split; [done|]. split; [done|].
    split. { by intros [|] Hm. }
    repeat (split; [done|]).
    split. { intros k Hk. by rewrite lookup_insert_ne. }
    split; [done|]. intros e He. unfold html; simpl. by rewrite lookup_insert_ne.
  - destruct (array_set_spec (or_nil (sections d)) idx
                (spread_with_content (mjoin (or_nil (sections d) !! idx)) markup))
      as (Hlen & Hat & Hother).
    eexists. split; [reflexivity|]. simpl.
    split. { unfold live, html; simpl. rewrite Hn; simpl. by rewrite lookup_insert_eq. }
    split. { unfold isDirty; simpl. by rewrite lookup_insert_eq. }
    split; [done|]. split. { rewrite Hat. simpl. by destruct (mjoin _). }
    split; [done|]. split; [done|].
    split. { by intros [|] Hm. }
    repeat (split; [done|]).
    split. { intros k Hk. by rewrite lookup_insert_ne. }
    split; [done|]. intros e He. unfold html; simpl. by rewrite lookup_insert_ne.
Qed.

(** X7. What the user typed is what is saved and what is exported: after
    an edit of a registered region whose slot is an object, [handleSave]
    sends the typed markup under the slot's stored name, and the
    preview and the download carry the typed markup at the region's
    place, although nothing has been saved yet. *)
Theorem edit_then_save_or_export (st : State) (mode : Mode) (idx : nat) (markup : string)
    (node : elem) (d : Doc) (r : Region) :
  pageContentRefs st !! refKey mode idx = Some node →
  documentData st = Some d →
  or_nil (region_array mode d) !! idx = Some (Some r) →
  handleSave_start mode idx (userEdit mode idx markup st)
    = SaveSent (mkSaveRequest mode (name r) markup)
        (mkRegion (name r) (JStr markup) (rtype r) (layout r)) ∧
  preview_regionHtml mode (userEdit mode idx markup st) !! idx = Some markup ∧
  download_regionHtml mode (userEdit mode idx markup st) !! idx = Some markup.
Proof.
  intros Hn Hd Hr.
  assert (Hlt : idx < length (or_nil (region_array mode d)))
    by (by eapply lookup_lt_Some).
  rewrite (userEdit_unfold _ _ _ _ _ Hn). rewrite Hd.
  destruct mode; simpl in *.
  - destruct (array_set_spec (or_nil (pages d)) idx
                (spread_with_content (mjoin (or_nil (pages d) !! idx)) markup))
      as (Hlen & Hat & _).
    split.
    + unfold handleSave_start; simpl. rewrite Hn, Hat. rewrite Hr. simpl.
      unfold html; simpl. by rewrite lookup_insert_eq.
    + unfold preview_regionHtml, download_regionHtml, preview_pageHtml, download_pageHtml,
        doc_pages; simpl.
      rewrite !region_html_lookup by (rewrite Hlen; lia).
      unfold live, html; simpl. rewrite Hn; simpl. by rewrite lookup_insert_eq.
  - destruct (array_set_spec (or_nil (sections d)) idx
                (spread_with_content (mjoin (or_nil (sections d) !! idx)) markup))
      as (Hlen & Hat & _).
    split.
    + unfold handleSave_start; simpl. rewrite Hn, Hat. rewrite Hr. simpl.
      unfold html; simpl. by rewrite lookup_insert_eq.
    + unfold preview_regionHtml, download_regionHtml, preview_sectionHtml,
        download_sectionHtml, doc_sections; simpl.
      rewrite !region_html_lookup by (rewrite Hlen; lia).
      unfold live, html; simpl. rewrite Hn; simpl. by rewrite lookup_insert_eq.
Qed.

(** ** Registering a handle *)

(** X8. When React hands a region its element, the registry holds that
    element under the region's key (replacing any earlier one), no
    other key and no flag changes (registering again never resets the
    edit state), and no other element is written.  The element itself
    is written only if the key is clean and the element reads as blank:
    a flagged region and a non-blank element keep their markup, and an
    element that is written reads back as the browser serialises the
    item's content.  A [null] element changes nothing. *)
Theorem refCallback_registers (mode : Mode) (idx : nat) (item : slot) (e : elem)
    (st : State) :
  pageContentRefs (refCallback mode idx item (Some e) st).1 !! refKey mode idx = Some e ∧
  (∀ k, k ≠ refKey mode idx →
        pageContentRefs (refCallback mode idx item (Some e) st).1 !! k
        = pageContentRefs st !! k) ∧
  localEditedRef (refCallback mode idx item (Some e) st).1 = localEditedRef st ∧
  documentData (refCallback mode idx item (Some e) st).1 = documentData st ∧
  (∀ e', e' ≠ e → html (refCallback mode idx item (Some e) st).1 e' = html st e') ∧
  (isDirty st (refKey mode idx) = true ∨ trim_is_empty (html st e) = false →
   html (refCallback mode idx item (Some e) st).1 e = html st e) ∧
  (∀ r, isDirty st (refKey mode idx) = false → trim_is_empty (html st e) = true →
        item = Some r →
        html (refCallback mode idx item (Some e) st).1 e
          = reserialise e (or_empty (content r))) ∧
  refCallback mode idx item None st = (st, Normal).
Proof.
  rewrite refCallback_state. simpl.
  split; [by rewrite lookup_insert_eq|].
  split; [intros k Hk; by rewrite lookup_insert_ne|].
  split; [done|]. split; [done|].
  split.
  { intros e' He'. unfold html; simpl.
    destruct (ref_writes mode idx item e st); [|done]. by rewrite lookup_insert_ne. }
  split.
  { intros Hor.
    assert (ref_writes mode idx item e st = false) as Hw.
    { unfold ref_writes. destruct Hor as [-> | ->]; simpl; [done|].
      by rewrite andb_false_r. }
    unfold html; simpl. by rewrite Hw. }
  split; [|done].
  intros r Hd Hb ->.
  assert (ref_writes mode idx (Some r) e st = true) as Hw.
  { unfold ref_writes. by rewrite Hd, Hb. }
  unfold html; simpl. rewrite Hw. by rewrite lookup_insert_eq.
Qed.

(** X9. The key [`${mode}${index}`] names one region only: two keys are
    equal exactly when kind and index are equal. *)
Theorem refKey_injective (m1 m2 : Mode) (i1 i2 : nat) :
  refKey m1 i1 = refKey m2 i2 ↔ m1 = m2 ∧ i1 = i2.
Proof. split; [apply refKey_inj|]. by intros [-> ->]. Qed.

(** ** Search: the error case and plain text *)

Lemma item_matches_None lower it :
  item_matches lower it = None ↔ item_content it = JUndefined.
Proof.
  unfold item_matches. destruct (item_content it); simpl; split; done.
Qed.

Lemma findIndex_from_thrown {A} (p : A → option bool) arr : ∀ idx0,
  findIndex_from p idx0 arr = FindThrown ↔
  ∃ j x, arr !! j = Some x ∧ p x = None ∧
         ∀ j' y, j' < j → arr !! j' = Some y → p y = Some false.
Proof.
  induction arr as [|x rest IH]; intros idx0; simpl.
  - split; [done|]. intros (j & y & Hj & _). by rewrite lookup_nil in Hj.
  - destruct (p x) as [[|]|] eqn:Hx.
    + split; [done|]. intros (j & y & Hj & Hy & Hlt).
      destruct j as [|j]; [simpl in Hj; congruence|].
      specialize (Hlt 0 x). simpl in Hlt. rewrite Hx in Hlt.
      discriminate Hlt; [lia|done].
    + rewrite IH. split.
      * intros (j & y & Hj & Hy & Hlt). exists (S j), y. repeat split; try done.
        intros [|j'] z Hj' Hz; simpl in Hz; [congruence|]. apply (Hlt j'); [lia|done].
      * intros (j & y & Hj & Hy & Hlt).
        destruct j as [|j]; [simpl in Hj; congruence|].
        exists j, y. repeat split; try done.
        intros j' z Hj' Hz. apply (Hlt (S j')); [lia|done].
    + split; [|done]. intros _. exists 0, x. repeat split; try done. intros; lia.
Qed.

(** X10. [handleSearch] ends in an uncaught error exactly when the
    query is not empty, a document is loaded, and the scan (pages, then
    sections) reaches a region without a [content] field before it
    reaches a match. *)
Theorem handleSearch_throws_iff (st : State) :
  handleSearch st = SearchThrown ↔
  search st ≠ "" ∧
  ∃ d, documentData st = Some d ∧
    ∃ j it, allItems d !! j = Some it ∧ item_content it = JUndefined ∧
      ∀ j' y, j' < j → allItems d !! j' = Some y →
              item_matches (toLowerCase (search st)) y = Some false.
Proof.
  unfold handleSearch.
  destruct (search st) as [|c q] eqn:Hq.
  { split; [done|]. by intros [? _]. }
  destruct (documentData st) as [d|] eqn:Hd.
  2:{ split; [done|]. by intros (_ & d & ? & _). }
  pose proof (findIndex_from_thrown (item_matches (toLowerCase (String c q))) (allItems d) 0)
    as Hiff.
  unfold findIndex.
  destruct (findIndex_from _ 0 (allItems d)) eqn:Hf.
  - split; [done|]. intros (_ & d' & [= <-] & j & it & Hj & Hc & Hlt).
    assert (FoundAt idx = FindThrown); [|done]. apply Hiff.
    exists j, it. repeat split; try done. by apply item_matches_None.
  - split; [done|]. intros (_ & d' & [= <-] & j & it & Hj & Hc & Hlt).
    assert (NotPresent = FindThrown); [|done]. apply Hiff.
    exists j, it. repeat split; try done. by apply item_matches_None.
  - split; [|done]. intros _. split; [done|]. exists d. split; [done|].
    destruct Hiff as [Hiff _]. destruct (Hiff eq_refl) as (j & it & Hj & Hc & Hlt).
    exists j, it. repeat split; try done. by apply item_matches_None in Hc.
Qed.

Lemma json_escape_plain s : json_plain s = true → json_escape s = s.
Proof.
  induction s as [|c s IH]; simpl; [done|].
  intros [Hc Hs]%andb_true_iff. rewrite (IH Hs).
  assert (json_escape_char c = String c "") as ->; [|done].
  destruct c as [[] [] [] [] [] [] [] []]; try discriminate Hc; reflexivity.
Qed.

Lemma lower_char_dquote a : lower_char a = "034"%char → a = "034"%char.
Proof. destruct a as [[] [] [] [] [] [] [] []]; intros H; try discriminate H; reflexivity. Qed.

Lemma lacks_lower q : lacks "034" q = true → lacks "034" (toLowerCase q) = true.
Proof.
  induction q as [|a q IH]; simpl; [done|].
  intros [Ha Hq]%andb_true_iff. rewrite (IH Hq), andb_true_r.
  apply negb_true_iff, bool_decide_eq_false. intros Hl.
  apply lower_char_dquote in Hl. subst a. by rewrite bool_decide_eq_true_2 in Ha.
Qed.

Lemma startsWith_snoc c q : ∀ s,
  lacks c q = true → startsWith (s +:+ String c "") q = startsWith s q.
Proof.
  induction q as [|b q IH]; intros s Hq; [by destruct s|].
  simpl in Hq. apply andb_true_iff in Hq as [Hb Hq].
  apply negb_true_iff, bool_decide_eq_false in Hb.
  destruct s as [|a s].
  - change (startsWith (String c "") (String b q) = false). simpl.
    rewrite bool_decide_eq_false_2; [done|congruence].
  - change (startsWith (String a (s +:+ String c "")) (String b q)
            = startsWith (String a s) (String b q)).
    simpl. by rewrite IH.
Qed.

Lemma includes_snoc c q : ∀ s,
  lacks c q = true → includes (s +:+ String c "") q = includes s q.
Proof.
  induction s as [|a s IH]; intros Hq.
  - change (includes (String c "") q = includes "" q).
    rewrite includes_cons, !includes_nil.
    pose proof (startsWith_snoc c q "" Hq) as H.
    change ("" +:+ String c "") with (String c "") in H.
    rewrite H. apply orb_diag.
  - change (includes (String a (s +:+ String c "")) q = includes (String a s) q).
    rewrite !includes_cons, IH by done.
    pose proof (startsWith_snoc c q (String a s) Hq) as H.
    change (String a s +:+ String c "") with (String a (s +:+ String c "")) in H.
    by rewrite H.
Qed.

Lemma includes_cons_lacks c q s :
  lacks c q = true → includes (String c s) q = includes s q.
Proof.
  intros Hq. rewrite includes_cons. destruct q as [|b q].
  - simpl. by destruct s.
  - simpl in Hq. apply andb_true_iff in Hq as [Hb _].
    apply negb_true_iff, bool_decide_eq_false in Hb. simpl.
    rewrite bool_decide_eq_false_2; [done|congruence].
Qed.

(** X11. On plain text the search is an exact case-insensitive
    substring test on the content itself: when the content has no
    character that [JSON.stringify] escapes (no quote, no backslash, no
    control character) and the query has no double quote, the region
    matches exactly when the lower-cased content contains the
    lower-cased query. *)
Theorem search_plain_text (query text : string) (r : Region) :
  content r = JStr text →
  json_plain text = true →
  lacks "034" query = true →
  item_matches (toLowerCase query) (Some r)
    = Some (includes (toLowerCase text) (toLowerCase query)).
Proof.
  intros Hc Hp Hq. unfold item_matches, item_content, JSON_stringify. rewrite Hc.
  rewrite (json_escape_plain _ Hp). f_equal.
  rewrite !toLowerCase_app.
  change (toLowerCase dquote) with (String "034"%char "").
  change (String "034" "" +:+ toLowerCase text +:+ String "034" "")
    with (String "034" (toLowerCase text +:+ String "034" "")).
  rewrite includes_cons_lacks by (by apply lacks_lower).
  apply includes_snoc. by apply lacks_lower.
Qed.

(** ** A successful save and the regions beside it *)

(** X12. When the save of one region succeeds, the normalised response
    replaces the stored document, only that region's flag is set, and
    no element is written at that moment.  When the repopulation the
    save queued then runs (no older one pending, no [null] slot in the
    response, distinct handles), every registered region that is clean
    and is not the saved one is assigned the response's content (and
    reads back as the browser serialises it), while the saved region
    and every flagged region keep their markup. *)
Theorem save_success_effects (st : State) (mode : Mode) (index : nat) (item : Region)
    (document : option Doc) :
  timers st = [] →
  handles_distinct st →
  no_null_slots (normalizeDocument document) →
  documentData (handleSave_settle mode index item (Resolved document) st)
    = Some (normalizeDocument document) ∧
  innerHTML (handleSave_settle mode index item (Resolved document) st) = innerHTML st ∧
  pageContentRefs (handleSave_settle mode index item (Resolved document) st)
    = pageContentRefs st ∧
  (∀ k, k ≠ refKey mode index →
        localEditedRef (handleSave_settle mode index item (Resolved document) st) !! k
        = localEditedRef st !! k) ∧
  (∀ m i r el,
     or_nil (region_array m (normalizeDocument document)) !! i = Some (Some r) →
     pageContentRefs st !! refKey m i = Some el →
     html (runTimer (handleSave_settle mode index item (Resolved document) st)) el
       = if isDirty st (refKey m i) || bool_decide (refKey m i = refKey mode index)
         then html st el else reserialise el (or_empty (content r))).
Proof.
  intros Ht Hinj Hnn.
  split; [done|]. split; [done|]. split; [done|].
  split. { intros k Hk. simpl. by rewrite lookup_insert_ne. }
  intros m i r el Hr Hel.
  set (nd := normalizeDocument document) in *.
  set (st' := handleSave_settle mode index item (Resolved document) st).
  set (st1 := set_timers [] st').
  assert (Hrt : runTimer st' = (populateEditorsFromDocument (Some nd) st1).1).
  { unfold runTimer.
    assert (timers st' = [nd]) as -> by (unfold st', handleSave_settle; simpl; by rewrite Ht).
    done. }
  rewrite Hrt.
  assert (Hinj1 : handles_distinct st1) by exact Hinj.
  assert (Hgoal : html (populateEditorsFromDocument (Some nd) st1).1 el
                  = if isDirty st1 (refKey m i) then html st1 el
                    else reserialise el (or_empty (content r)))
    by (by apply populate_html_spec).
  rewrite Hgoal.
  assert (isDirty st1 (refKey m i)
          = isDirty st (refKey m i) || bool_decide (refKey m i = refKey mode index)) as ->.
  { unfold isDirty, st1; simpl.
    destruct (decide (refKey m i = refKey mode index)) as [->|Hne].
    - rewrite lookup_insert_eq, bool_decide_eq_true_2 by done. simpl. by rewrite orb_true_r.
    - rewrite lookup_insert_ne by done. rewrite bool_decide_eq_false_2 by done.
      by rewrite orb_false_r. }
  reflexivity.
Qed.

(** ** The loading indicator during overlapping regenerations *)

Lemma run_app s es1 es2 : run s (es1 ++ es2) = run (run s es1) es2.
Proof. unfold run. apply foldl_app. Qed.

(** X13. The loading indicator does not track the requests in flight:
    when several whole-document regenerations have been started and the
    first one settles (either way), the indicator is switched off
    while the others are still pending. *)
Theorem loading_off_while_pending (st : State) (n : nat) (res : Response) :
  loading (page (run (initial st)
                   (replicate (S (S n)) ClickRegenerate ++ [SettleRegenerate res]))) = false ∧
  length (pending_regenerations
            (run (initial st)
               (replicate (S (S n)) ClickRegenerate ++ [SettleRegenerate res]))) = S n.
Proof.
  rewrite run_app.
  destruct (run_clicks (S (S n)) (initial st)) as (Hp & _ & _).
  set (s := run (initial st) (replicate (S (S n)) ClickRegenerate)) in *.
  unfold run. simpl foldl. unfold dispatch. rewrite Hp. simpl.
  split; [by destruct res|]. by rewrite length_replicate.
Qed.

End ViewerProperties.

(** * The sample session

    The theorems above at the sample session, run in [sample_browser]. *)

#[local] Existing Instance sample_browser.

Lemma dirty_dominance_witness :
  live (repopulate [Some doc1; None; Some doc2] edited) "page0" = live edited "page0" ∧
  html (repopulate [Some doc1; None; Some doc2] edited) 0 = html edited 0 ∧
  isDirty (repopulate [Some doc1; None; Some doc2] edited) "page0" = true ∧
  (∀ k el', pageContentRefs edited !! k = Some el' →
            html (repopulate [Some doc1; None; Some doc2] edited) el' ≠ html edited el' →
            isDirty edited k = false).
Proof.
  apply (dirty_dominance edited "page0" 0 [Some doc1; None; Some doc2]).
  - apply handles_distinct_b_sound. vm_compute. reflexivity.
  - vm_compute. reflexivity.
  - vm_compute. reflexivity.
Defined.

(** C3 fails as stated: the edited sample page is reset and repopulated
    from a document whose page content holds a bare ampersand; the
    region's live markup is then the browser's serialisation of the
    field, which is not the field. *)
Lemma reset_live_differs_from_field :
  isDirty edited "page0" = true ∧
  item_content (mjoin (or_nil (pages doc_amp) !! 0)) = JStr "<p>R & D</p>" ∧
  live (populateEditorsFromDocument (Some doc_amp)
          (register_all
             [(MSection, 0, Some summary, Some 1);
              (MPage, 0, mjoin (or_nil (pages doc_amp) !! 0), Some 0)]
             (resetRefs (Some doc_amp) edited))).1 "page0"
    = Some "<p>R &amp; D</p>".
Proof. vm_compute. repeat split. Qed.

Lemma reset_clears_witness :
  (populateEditorsFromDocument (Some doc_amp)
     (register_all [(MSection, 0, Some summary, Some 1); (MPage, 0, Some intro, Some 0)]
        (resetRefs (Some doc_amp) edited))).2 = Normal ∧
  ∀ mode idx r el,
    or_nil (region_array mode doc_amp) !! idx = Some (Some r) →
    pageContentRefs
      (register_all [(MSection, 0, Some summary, Some 1); (MPage, 0, Some intro, Some 0)]
         (resetRefs (Some doc_amp) edited)) !! refKey mode idx = Some el →
    html (populateEditorsFromDocument (Some doc_amp)
            (register_all [(MSection, 0, Some summary, Some 1); (MPage, 0, Some intro, Some 0)]
               (resetRefs (Some doc_amp) edited))).1 el
      = reserialise el (or_empty (content r)) ∧
    live (populateEditorsFromDocument (Some doc_amp)
            (register_all [(MSection, 0, Some summary, Some 1); (MPage, 0, Some intro, Some 0)]
               (resetRefs (Some doc_amp) edited))).1 (refKey mode idx)
      = Some (reserialise el (or_empty (content r))) ∧
    (html (populateEditorsFromDocument (Some doc_amp)
             (register_all
                [(MSection, 0, Some summary, Some 1); (MPage, 0, Some intro, Some 0)]
                (resetRefs (Some doc_amp) edited))).1 el
       = or_empty (content r)
     ↔ reserialise el (or_empty (content r)) = or_empty (content r)).
Proof.
  apply (reset_clears edited doc_amp
           [(MSection, 0, Some summary, Some 1); (MPage, 0, Some intro, Some 0)]).
  - split; repeat constructor; eexists; reflexivity.
  - apply handles_distinct_b_sound. vm_compute. reflexivity.
Defined.

(** The scenario of the specification: the page is edited and not
    saved, the whole document is regenerated with other content; once
    the handles are registered again and the queued repopulation has
    run, the page shows the regenerated content. *)
Example regenerate_overrides_edit :
  live edited "page0" = Some "<p>Hi there</p>" ∧
  live (runTimer (render_refs sample_els
          (handleRegenerateDocument_settle (Resolved (Some doc2))
             (handleRegenerateDocument_start edited)))) "page0"
    = Some "<p>Rewritten</p>".
Proof. vm_compute. split; reflexivity. Qed.

(** C2 fails as stated: in the sample session the page is saved (its
    flag is set and it shows the saved markup), the document is then
    fetched again with other content, and the page shows the fetched
    content. *)
Lemma post_save_fetch_overwrites :
  isDirty after_save "page0" = true ∧
  live after_save "page0" = Some "<p>Hi there</p>" ∧
  live refetched "page0" = Some "<p>Rewritten</p>" ∧
  isDirty refetched "page0" = false.
Proof. vm_compute. repeat split. Qed.

Lemma post_save_lock_witness :
  isDirty (handleSave_settle MPage 0 intro (Resolved (Some saved_doc)) edited)
    (refKey MPage 0) = true ∧
  live (repopulate [Some doc2]
          (Nat.iter 1 runTimer
             (handleSave_settle MPage 0 intro (Resolved (Some saved_doc)) edited)))
       (refKey MPage 0)
    = live edited (refKey MPage 0) ∧
  (∀ st' payload,
     all_clean (fetchDocument_settle (Resolved payload) st') ∧
     pageContentRefs (fetchDocument_settle (Resolved payload) st') = ∅).
Proof.
  apply (post_save_lock edited MPage 0 intro (Some saved_doc) 0 1 [Some doc2]).
  - apply handles_distinct_b_sound. vm_compute. reflexivity.
  - vm_compute. reflexivity.
Defined.

(** C4 fails as stated for the empty query: every region contains it,
    and [handleSearch] returns at its first line without locating a
    region or raising the notice. *)
Lemma empty_query_is_ignored :
  handleSearch (setSearch "" loaded) = SearchIgnored ∧
  item_matches (toLowerCase "") (Some intro) = Some true ∧
  documentData (setSearch "" loaded) = Some (normalizeDocument (Some doc1)).
Proof. vm_compute. repeat split. Qed.

Lemma search_first_match_witness :
  (∃ idx key target it,
     handleSearch (setSearch "ALPHA" loaded) = SearchFound idx key target ∧
     allItems (normalizeDocument (Some doc1)) !! idx = Some it ∧
     region_matches (search (setSearch "ALPHA" loaded)) it ∧
     (∀ j y, j < idx → allItems (normalizeDocument (Some doc1)) !! j = Some y →
             ¬ region_matches (search (setSearch "ALPHA" loaded)) y) ∧
     (idx < length (or_nil (pages (normalizeDocument (Some doc1)))) ∧
        or_nil (pages (normalizeDocument (Some doc1))) !! idx = Some it ∧
        key = refKey MPage idx
      ∨ (length (or_nil (pages (normalizeDocument (Some doc1)))) ≤ idx)%nat ∧
        or_nil (sections (normalizeDocument (Some doc1)))
          !! (idx - length (or_nil (pages (normalizeDocument (Some doc1))))) = Some it ∧
        key = refKey MSection (idx - length (or_nil (pages (normalizeDocument (Some doc1)))))) ∧
     (∀ el, target = Some el →
            pageContentRefs (setSearch "ALPHA" loaded) !! key = Some el))
  ∨ (handleSearch (setSearch "ALPHA" loaded)
       = SearchNotFound (setSnack not_found (setSearch "ALPHA" loaded)) ∧
     ∀ it, it ∈ allItems (normalizeDocument (Some doc1)) →
           ¬ region_matches (search (setSearch "ALPHA" loaded)) it).
Proof.
  apply (search_first_match (setSearch "ALPHA" loaded) (normalizeDocument (Some doc1))).
  - discriminate.
  - vm_compute. reflexivity.
  - repeat constructor; discriminate.
Defined.

(** The scenario of the specification: the query occurs in the section
    only; the section is located, at position 1, under its own key. *)
Example search_alpha_in_section :
  handleSearch (setSearch "ALPHA" loaded) = SearchFound 1 "section0" (Some 1).
Proof. vm_compute. reflexivity. Qed.

(** Outside the amended claim: a region without [content] that the scan
    reaches before a match makes the handler throw. *)
Example search_throws_without_content :
  handleSearch
    (setSearch "alpha"
       (setDocumentData
          (Some (mkDoc (JStr "3") JUndefined JUndefined
                   (Some [Some (mkRegion (JStr "Cover") JUndefined JUndefined JUndefined)])
                   (Some [Some summary])))
          mounted))
  = SearchThrown.
Proof. vm_compute. reflexivity. Qed.

Lemma assembly_order_witness :
  preview_joined
    (register_all [(MSection, 0, Some summary, Some 1); (MPage, 0, Some intro, Some 0)]
       fetched)
  = preview_joined
      (register_all [(MPage, 0, Some intro, Some 0); (MSection, 0, Some summary, Some 1)]
         fetched).
Proof.
  destruct (assembly_order fetched) as (_ & _ & _ & _ & _ & _ & _ & _ & _ & Hperm).
  apply Hperm.
  - apply perm_swap.
  - apply (bool_decide_unpack _). vm_compute. exact I.
  - apply (bool_decide_unpack _). vm_compute. exact I.
Defined.

(** In the sample session with pages [A, B] and a section [C], whose
    handles are registered as C, A, B: the body is A, B, C. *)
Example assembly_sample :
  preview_joined
    (register_all
       [(MSection, 0, Some (mkRegion (JStr "C") (JStr "<p>c</p>") JUndefined JUndefined), Some 7);
        (MPage, 0, Some (mkRegion (JStr "A") (JStr "<p>a</p>") JUndefined JUndefined), Some 8);
        (MPage, 1, Some (mkRegion (JStr "B") (JStr "<p>b</p>") JUndefined JUndefined), Some 9)]
       (setDocumentData
          (Some (mkDoc (JStr "2") JUndefined JUndefined
                   (Some [Some (mkRegion (JStr "A") (JStr "<p>a</p>") JUndefined JUndefined);
                          Some (mkRegion (JStr "B") (JStr "<p>b</p>") JUndefined JUndefined)])
                   (Some [Some (mkRegion (JStr "C") (JStr "<p>c</p>") JUndefined JUndefined)])))
          mounted))
  = "<p>a</p><p>b</p><p>c</p>".
Proof. vm_compute. reflexivity. Qed.

Lemma unregistered_region_is_harmless_witness :
  (0 < length (doc_regions MSection (set_pageContentRefs {[ "page0" := 0 ]} edited)) →
     preview_regionHtml MSection (set_pageContentRefs {[ "page0" := 0 ]} edited) !! 0
       = Some "" ∧
     download_regionHtml MSection (set_pageContentRefs {[ "page0" := 0 ]} edited) !! 0
       = Some "") ∧
  handleSave_start MSection 0 (set_pageContentRefs {[ "page0" := 0 ]} edited)
    = SaveReturned ∧
  (∀ server, handleSave MSection 0 server (set_pageContentRefs {[ "page0" := 0 ]} edited)
             = set_pageContentRefs {[ "page0" := 0 ]} edited).
Proof.
  apply (unregistered_region_is_harmless
           (set_pageContentRefs {[ "page0" := 0 ]} edited) MSection 0).
  - intros d Hd. vm_compute in Hd. injection Hd as <-. split; eexists; reflexivity.
  - vm_compute. reflexivity.
Defined.

(** Two clicks on the loaded sample page: two regenerations pending. *)
Example regenerate_twice :
  pending_regenerations (run (initial loaded) [ClickRegenerate; ClickRegenerate])
    = ["source text"; "source text"].
Proof. vm_compute. reflexivity. Qed.

Lemma populate_writes_exactly_witness :
  html (populateEditorsFromDocument (Some doc2) edited).1 0 = "<p>Hi there</p>" ∧
  html (populateEditorsFromDocument (Some doc2) edited).1 1 = "<p>Alpha</p>" ∧
  isDirty edited (refKey MPage 0) = true ∧
  isDirty edited (refKey MSection 0) = false.
Proof.
  assert (Hd : handles_distinct edited)
    by (apply handles_distinct_b_sound; vm_compute; reflexivity).
  assert (Hn : no_null_slots doc2) by (split; repeat constructor; eexists; reflexivity).
  destruct (populate_writes_exactly edited doc2 Hd Hn) as (_ & _ & Hw & _).
  split; [|split; [|split; vm_compute; reflexivity]].
  - rewrite (Hw MPage 0 (mkRegion (JStr "Intro") (JStr "<p>Rewritten</p>")
                           JUndefined JUndefined) 0); vm_compute; reflexivity.
  - rewrite (Hw MSection 0 summary 1); vm_compute; reflexivity.
Defined.

Lemma populate_aborts_on_null_witness :
  (populateEditorsFromDocument
     (Some (mkDoc (JStr "1") JUndefined JUndefined (Some [None]) (Some [Some summary])))
     loaded).2 = Thrown ∧
  (MPage = MPage →
   ∀ el', (∀ j, pageContentRefs loaded !! refKey MPage j ≠ Some el') →
          html (populateEditorsFromDocument
                  (Some (mkDoc (JStr "1") JUndefined JUndefined (Some [None])
                           (Some [Some summary]))) loaded).1 el'
          = html loaded el').
Proof.
  apply (populate_aborts_on_null loaded
           (mkDoc (JStr "1") JUndefined JUndefined (Some [None]) (Some [Some summary]))
           MPage 0 0); vm_compute; reflexivity.
Defined.

Lemma fetch_shows_document_witness :
  documentData
    (runTimer (register_all [(MPage, 0, Some intro, Some 5); (MSection, 0, Some summary, Some 6)]
       (fetchDocument_settle (Resolved (Some doc_amp)) (fetchDocument_start after_save))))
    = Some (normalizeDocument (Some doc_amp)) ∧
  loading
    (runTimer (register_all [(MPage, 0, Some intro, Some 5); (MSection, 0, Some summary, Some 6)]
       (fetchDocument_settle (Resolved (Some doc_amp)) (fetchDocument_start after_save))))
    = false ∧
  timers
    (runTimer (register_all [(MPage, 0, Some intro, Some 5); (MSection, 0, Some summary, Some 6)]
       (fetchDocument_settle (Resolved (Some doc_amp)) (fetchDocument_start after_save))))
    = [] ∧
  ∀ mode idx r el,
    or_nil (region_array mode (normalizeDocument (Some doc_amp))) !! idx = Some (Some r) →
    pageContentRefs
      (register_all [(MPage, 0, Some intro, Some 5); (MSection, 0, Some summary, Some 6)]
         (fetchDocument_settle (Resolved (Some doc_amp)) (fetchDocument_start after_save)))
      !! refKey mode idx = Some el →
    html (runTimer (register_all
            [(MPage, 0, Some intro, Some 5); (MSection, 0, Some summary, Some 6)]
            (fetchDocument_settle (Resolved (Some doc_amp)) (fetchDocument_start after_save)))) el
      = reserialise el (or_empty (content r)).
Proof.
  apply (fetch_shows_document after_save (Some doc_amp)
           [(MPage, 0, Some intro, Some 5); (MSection, 0, Some summary, Some 6)]).
  - vm_compute. reflexivity.
  - split; repeat constructor; eexists; reflexivity.
  - apply handles_distinct_b_sound. vm_compute. reflexivity.
Defined.

Lemma userEdit_syncs_document_witness :
  ∃ d',
    documentData (userEdit MSection 0 "<p>Beta</p>" loaded) = Some d' ∧
    live (userEdit MSection 0 "<p>Beta</p>" loaded) (refKey MSection 0)
      = Some "<p>Beta</p>" ∧
    isDirty (userEdit MSection 0 "<p>Beta</p>" loaded) (refKey MSection 0) = true ∧
    or_nil (region_array MSection d') !! 0
      = Some (Some (spread_with_content
                      (mjoin (or_nil (region_array MSection (normalizeDocument (Some doc1)))
                                !! 0)) "<p>Beta</p>")) ∧
    item_content (mjoin (or_nil (region_array MSection d') !! 0)) = JStr "<p>Beta</p>" ∧
    length (or_nil (region_array MSection d'))
      = max (length (or_nil (region_array MSection (normalizeDocument (Some doc1))))) 1 ∧
    (∀ j, j < length (or_nil (region_array MSection (normalizeDocument (Some doc1)))) →
          j ≠ 0 →
          or_nil (region_array MSection d') !! j
          = or_nil (region_array MSection (normalizeDocument (Some doc1))) !! j) ∧
    (∀ m, m ≠ MSection → region_array m d' = region_array m (normalizeDocument (Some doc1))) ∧
    id d' = id (normalizeDocument (Some doc1)) ∧
    title d' = title (normalizeDocument (Some doc1)) ∧
    raw_text d' = raw_text (normalizeDocument (Some doc1)) ∧
    (∀ k, k ≠ refKey MSection 0 →
          localEditedRef (userEdit MSection 0 "<p>Beta</p>" loaded) !! k
          = localEditedRef loaded !! k) ∧
    pageContentRefs (userEdit MSection 0 "<p>Beta</p>" loaded) = pageContentRefs loaded ∧
    (∀ e, e ≠ 1 → html (userEdit MSection 0 "<p>Beta</p>" loaded) e = html loaded e).
Proof.
  apply (userEdit_syncs_document loaded MSection 0 "<p>Beta</p>" 1
           (normalizeDocument (Some doc1))); vm_compute; reflexivity.
Defined.

Lemma edit_then_save_or_export_witness :
  handleSave_start MPage 0 (userEdit MPage 0 "<p>Hi there</p>" loaded)
    = SaveSent (mkSaveRequest MPage (JStr "Intro") "<p>Hi there</p>")
        (mkRegion (JStr "Intro") (JStr "<p>Hi there</p>") JUndefined (JStr "text")) ∧
  preview_regionHtml MPage (userEdit MPage 0 "<p>Hi there</p>" loaded) !! 0
    = Some "<p>Hi there</p>" ∧
  download_regionHtml MPage (userEdit MPage 0 "<p>Hi there</p>" loaded) !! 0
    = Some "<p>Hi there</p>".
Proof.
  apply (edit_then_save_or_export loaded MPage 0 "<p>Hi there</p>" 0
           (normalizeDocument (Some doc1))
           (mkRegion (JStr "Intro") (JStr "<p>Hi</p>") JUndefined (JStr "text")));
    vm_compute; reflexivity.
Defined.

Lemma search_plain_text_witness :
  item_matches (toLowerCase "ALPHA") (Some summary)
    = Some (includes (toLowerCase "<p>Alpha</p>") (toLowerCase "ALPHA")).
Proof.
  apply (search_plain_text "ALPHA" "<p>Alpha</p>" summary); reflexivity.
Defined.

Lemma save_success_effects_witness :
  documentData (handleSave_settle MPage 0 intro (Resolved (Some doc2)) loaded)
    = Some (normalizeDocument (Some doc2)) ∧
  innerHTML (handleSave_settle MPage 0 intro (Resolved (Some doc2)) loaded)
    = innerHTML loaded ∧
  pageContentRefs (handleSave_settle MPage 0 intro (Resolved (Some doc2)) loaded)
    = pageContentRefs loaded ∧
  (∀ k, k ≠ refKey MPage 0 →
        localEditedRef (handleSave_settle MPage 0 intro (Resolved (Some doc2)) loaded) !! k
        = localEditedRef loaded !! k) ∧
  (∀ m i r el,
     or_nil (region_array m (normalizeDocument (Some doc2))) !! i = Some (Some r) →
     pageContentRefs loaded !! refKey m i = Some el →
     html (runTimer (handleSave_settle MPage 0 intro (Resolved (Some doc2)) loaded)) el
       = if isDirty loaded (refKey m i) || bool_decide (refKey m i = refKey MPage 0)
         then html loaded el else reserialise el (or_empty (content r))).
Proof.
  apply (save_success_effects loaded MPage 0 intro (Some doc2)).
  - vm_compute. reflexivity.
  - apply handles_distinct_b_sound. vm_compute. reflexivity.
  - split; repeat constructor; eexists; reflexivity.
Defined.

(** * ConfigurePage *)

Import Configure.

(** ** Rows *)

Lemma new_page_has_id newId n : has_id newId (new_page newId n).
Proof. unfold has_id, new_page. by rewrite lookup_insert_eq. Qed.

Lemma new_section_has_id newId n : has_id newId (new_section newId n).
Proof. unfold has_id, new_section. by rewrite lookup_insert_eq. Qed.

Lemma filter_all {A} (P : A → Prop) `{∀ x, Decision (P x)} (l : list A) :
  Forall P l → filter P l = l.
Proof.
  induction 1 as [|x l Hx Hl IH]; [done|].
  rewrite filter_cons_True by done. by rewrite IH.
Qed.

(** X14. Adding a row and removing it again restores the list, for
    pages and for sections, provided no row already has the new id; the
    added row is the last one, its sequence number is the old length
    plus one and its name is empty; the rows before it are unchanged. *)
Theorem add_then_remove (newId : string) (rows : list Row) :
  Forall (λ x, ¬ has_id newId x) rows →
  removePage newId (addPage newId rows) = rows ∧
  removeSection newId (addSection newId rows) = rows ∧
  length (addPage newId rows) = S (length rows) ∧
  length (addSection newId rows) = S (length rows) ∧
  (∃ row, addPage newId rows !! length rows = Some row ∧
          row !! "sequence" = Some (VNum (length rows + 1)) ∧
          row !! "name" = Some (VStr "") ∧ has_id newId row) ∧
  (∃ row, addSection newId rows !! length rows = Some row ∧
          row !! "sequence" = Some (VNum (length rows + 1)) ∧
          row !! "name" = Some (VStr "") ∧ has_id newId row) ∧
  (∀ i, i < length rows →
        addPage newId rows !! i = rows !! i ∧ addSection newId rows !! i = rows !! i).
Proof.
  intros Hfresh.
  assert (Hrm : ∀ row, has_id newId row →
            filter (λ x, ¬ has_id newId x) (rows ++ [row])%list = rows).
  { intros row Hrow. rewrite filter_app, (filter_all _ _ Hfresh).
    rewrite filter_cons_False by (intros Hn; by apply Hn).
    by rewrite filter_nil, app_nil_r. }
  split; [apply Hrm, new_page_has_id|]. split; [apply Hrm, new_section_has_id|].
  unfold addPage, addSection. rewrite !length_app. simpl.
  split; [lia|]. split; [lia|].
  split.
  { eexists. rewrite lookup_app_r by lia. rewrite Nat.sub_diag. simpl.
    split; [reflexivity|]. repeat split; try apply new_page_has_id; reflexivity. }
  split.
  { eexists. rewrite lookup_app_r by lia. rewrite Nat.sub_diag. simpl.
    split; [reflexivity|]. repeat split; try apply new_section_has_id; reflexivity. }
  intros i Hi. by rewrite !lookup_app_l by lia.
Qed.

Lemma add_then_remove_witness :
  removePage "pg_2" (addPage "pg_2" [new_page "pg_1" 0]) = [new_page "pg_1" 0] ∧
  removeSection "pg_2" (addSection "pg_2" [new_page "pg_1" 0]) = [new_page "pg_1" 0] ∧
  length (addPage "pg_2" [new_page "pg_1" 0]) = S (length [new_page "pg_1" 0]) ∧
  length (addSection "pg_2" [new_page "pg_1" 0]) = S (length [new_page "pg_1" 0]) ∧
  (∃ row, addPage "pg_2" [new_page "pg_1" 0] !! length [new_page "pg_1" 0] = Some row ∧
          row !! "sequence" = Some (VNum (length [new_page "pg_1" 0] + 1)) ∧
          row !! "name" = Some (VStr "") ∧ has_id "pg_2" row) ∧
  (∃ row, addSection "pg_2" [new_page "pg_1" 0] !! length [new_page "pg_1" 0] = Some row ∧
          row !! "sequence" = Some (VNum (length [new_page "pg_1" 0] + 1)) ∧
          row !! "name" = Some (VStr "") ∧ has_id "pg_2" row) ∧
  (∀ i, i < length [new_page "pg_1" 0] →
        addPage "pg_2" [new_page "pg_1" 0] !! i = [new_page "pg_1" 0] !! i ∧
        addSection "pg_2" [new_page "pg_1" 0] !! i = [new_page "pg_1" 0] !! i).
Proof.
  apply (add_then_remove "pg_2" [new_page "pg_1" 0]).
  repeat constructor. unfold has_id. vm_compute. discriminate.
Defined.

(** X15. [updatePage] and [updateSection] keep the number and order of
    rows and change only rows with the given id; in such a row the
    named field gets the new text and every other field is kept, except
    that editing the field [editable_prompt] also sets
    [manually_edited], which no other edit touches. *)
Theorem updatePage_effect (localId key val : string) (rows : list Row) :
  updateSection localId key val rows = updatePage localId key val rows ∧
  length (updatePage localId key val rows) = length rows ∧
  ∀ i it, rows !! i = Some it →
    (¬ has_id localId it → updatePage localId key val rows !! i = Some it) ∧
    (has_id localId it →
     ∃ it', updatePage localId key val rows !! i = Some it' ∧
       it' !! key = Some (VStr val) ∧
       (∀ k, k ≠ key → k ≠ "manually_edited" → it' !! k = it !! k) ∧
       (key = "editable_prompt" → it' !! "manually_edited" = Some (VBool true)) ∧
       (key ≠ "editable_prompt" → key ≠ "manually_edited" →
        it' !! "manually_edited" = it !! "manually_edited")).
Proof.
  split; [done|]. unfold updatePage.
  split. { destruct (decide (key = "editable_prompt")); by rewrite ?length_fmap. }
  intros i it Hi. split.
  - intros Hno. destruct (decide (key = "editable_prompt")).
    + rewrite !list_lookup_fmap, Hi. cbn [fmap option_fmap option_map].
      rewrite (decide_False (P := has_id localId it)) by done.
      by rewrite (decide_False (P := has_id localId it)).
    + rewrite list_lookup_fmap, Hi. cbn [fmap option_fmap option_map].
      by rewrite (decide_False (P := has_id localId it)).
  - intros Hid. destruct (decide (key = "editable_prompt")) as [->|Hne].
    + rewrite !list_lookup_fmap, Hi. cbn [fmap option_fmap option_map].
      rewrite (decide_True (P := has_id localId it)) by done.
      assert (has_id localId (<["editable_prompt":=VStr val]> it)) as Hid'.
      { unfold has_id in *. by rewrite lookup_insert_ne. }
      rewrite (decide_True (P := has_id localId (<["editable_prompt":=VStr val]> it)))
        by done.
      eexists. split; [reflexivity|].
      split. { rewrite lookup_insert_ne by done. by rewrite lookup_insert_eq. }
      split. { intros k Hk1 Hk2. by rewrite !lookup_insert_ne. }
      split; [intros _; by rewrite lookup_insert_eq|done].
    + rewrite list_lookup_fmap, Hi. cbn [fmap option_fmap option_map].
      rewrite (decide_True (P := has_id localId it)) by done.
      eexists. split; [reflexivity|].
      split; [by rewrite lookup_insert_eq|].
      split. { intros k Hk1 Hk2. by rewrite lookup_insert_ne. }
      split; [done|]. intros _ Hk. by rewrite lookup_insert_ne.
Qed.

(** ** Formatting rules *)

Lemma split_comma_cons c t :
  c ≠ ","%char →
  split_comma (String c t)
    = match split_comma t with
      | [] => [String c ""]
      | p :: ps => String c p :: ps
      end.
Proof. intros Hc. simpl. by rewrite bool_decide_eq_false_2. Qed.

Lemma split_comma_lacks s : lacks ","%char s = true → split_comma s = [s].
Proof.
  induction s as [|c s IH]; [done|]. simpl lacks.
  intros [Hc Hs]%andb_true_iff. apply negb_true_iff, bool_decide_eq_false in Hc.
  rewrite split_comma_cons by done. by rewrite (IH Hs).
Qed.

Lemma split_comma_app s t :
  lacks ","%char s = true →
  split_comma (s +:+ String ","%char t) = s :: split_comma t.
Proof.
  induction s as [|c s IH]; [done|]. simpl lacks.
  intros [Hc Hs]%andb_true_iff. apply negb_true_iff, bool_decide_eq_false in Hc.
  change (String c s +:+ String "," t) with (String c (s +:+ String "," t)).
  rewrite split_comma_cons by done. by rewrite (IH Hs).
Qed.

Lemma split_join r rest :
  Forall (λ x, lacks ","%char x = true) (r :: rest) →
  split_comma (join_rules (r :: rest)) = r :: (String " "%char <$> rest).
Proof.
  revert r. induction rest as [|r2 rest IH]; intros r Hall.
  - apply Forall_cons in Hall as [Hr _]. simpl. by apply split_comma_lacks.
  - apply Forall_cons in Hall as [Hr Hall].
    change (join_rules (r :: r2 :: rest))
      with (r +:+ String ","%char (String " "%char (join_rules (r2 :: rest)))).
    rewrite split_comma_app by done.
    rewrite split_comma_cons by done. by rewrite (IH r2 Hall).
Qed.

Lemma trim_space_cons r : trim (String " "%char r) = trim r.
Proof. reflexivity. Qed.

(** X16. Showing an array of formatting rules in the input and reading
    it back gives the same array: [join(", ")] followed by the payload's
    split, trim and filter is the identity on every list of rules that
    are not empty, have no comma and no white space at either end. *)
Theorem rules_round_trip (rules : list string) :
  Forall rule_ok rules →
  parse_rules (join_rules rules) = rules ∧
  payload_rules (shown_rules (Some (VList rules))) = payload_rules (Some (VList rules)).
Proof.
  intros Hok.
  assert (Hrt : parse_rules (join_rules rules) = rules).
  { unfold parse_rules. destruct rules as [|r rest]; [done|].
    rewrite split_join.
    2:{ eapply Forall_impl; [exact Hok|]. by intros x (_ & ? & _). }
    assert (Htrim : trim <$> (r :: (String " "%char <$> rest)) = r :: rest).
    { rewrite fmap_cons. apply Forall_cons in Hok as [(_ & _ & Hr) Hrest]. rewrite Hr.
      f_equal. rewrite <- list_fmap_compose.
      clear -Hrest. induction Hrest as [|x l (_ & _ & Hx) _ IH]; [done|].
      rewrite fmap_cons. simpl. rewrite trim_space_cons, Hx. by rewrite IH. }
    rewrite Htrim. apply filter_all.
    eapply Forall_impl; [exact Hok|]. by intros x (? & _). }
  split; [done|]. simpl. by rewrite Hrt.
Qed.

Lemma rules_round_trip_witness :
  parse_rules (join_rules ["Use bullets"; "No jargon"; "UK spelling"])
    = ["Use bullets"; "No jargon"; "UK spelling"] ∧
  payload_rules (shown_rules (Some (VList ["Use bullets"; "No jargon"; "UK spelling"])))
    = payload_rules (Some (VList ["Use bullets"; "No jargon"; "UK spelling"])).
Proof.
  apply (rules_round_trip ["Use bullets"; "No jargon"; "UK spelling"]).
  repeat constructor; discriminate.
Defined.

Lemma split_comma_pieces s : Forall (λ x, lacks ","%char x = true) (split_comma s).
Proof.
  induction s as [|c s IH]; [by repeat constructor|].
  simpl. destruct (bool_decide (c = ","%char)) eqn:Hc; [by constructor|].
  apply bool_decide_eq_false in Hc.
  destruct (split_comma s) as [|p ps]; [repeat constructor|].
  - simpl. rewrite bool_decide_eq_false_2 by done. done.
  - apply Forall_cons in IH as [Hp Hps]. constructor; [|done].
    simpl. rewrite bool_decide_eq_false_2 by done. done.
Qed.

Lemma trimStart_lacks c s : lacks c s = true → lacks c (trimStart s) = true.
Proof.
  induction s as [|a s IH]; [done|]. simpl.
  intros [Ha Hs]%andb_true_iff. destruct (is_space a); [by apply IH|].
  simpl. by rewrite Ha, Hs.
Qed.

Lemma trimEnd_lacks c s : lacks c s = true → lacks c (trimEnd s) = true.
Proof.
  induction s as [|a s IH]; [done|]. simpl.
  intros [Ha Hs]%andb_true_iff. specialize (IH Hs).
  destruct (trimEnd s) as [|b t].
  - destruct (is_space a); [done|]. simpl. by rewrite Ha.
  - simpl in *. by rewrite Ha, IH.
Qed.

Lemma trimEnd_idem s : trimEnd (trimEnd s) = trimEnd s.
Proof.
  induction s as [|a s IH]; [done|]. simpl.
  destruct (trimEnd s) as [|b t] eqn:Ht.
  - destruct (is_space a) eqn:Ha; [done|]. simpl. by rewrite Ha.
  - simpl in *. by rewrite IH.
Qed.

Lemma trimStart_solid s : starts_solid (trimStart s).
Proof.
  induction s as [|a s IH]; [done|]. simpl.
  destruct (is_space a) eqn:Ha; [done|]. exact Ha.
Qed.

Lemma trimEnd_solid s : starts_solid s → starts_solid (trimEnd s).
Proof.
  destruct s as [|a s]; [done|]. simpl. intros Ha.
  destruct (trimEnd s); [by rewrite Ha|done].
Qed.

Lemma trimStart_id s : starts_solid s → trimStart s = s.
Proof. destruct s as [|a s]; [done|]. simpl. by intros ->. Qed.

Lemma trim_idem s : trim (trim s) = trim s.
Proof.
  unfold trim.
  rewrite (trimStart_id (trimEnd (trimStart s))).
  - apply trimEnd_idem.
  - apply trimEnd_solid, trimStart_solid.
Qed.

Lemma parse_rules_ok text : Forall rule_ok (parse_rules text).
Proof.
  unfold parse_rules. apply Forall_forall. intros r Hr.
  apply list_elem_of_filter in Hr as [Hne Hr].
  apply list_elem_of_fmap in Hr as (piece & -> & Hpiece).
  split; [done|]. split; [|apply trim_idem].
  pose proof (split_comma_pieces text) as Hall. rewrite Forall_forall in Hall.
  unfold trim. by apply trimEnd_lacks, trimStart_lacks, Hall.
Qed.

(** X17. Whatever text is typed as formatting rules, the rules sent
    are never empty, contain no comma and have no white space at either
    end; and they are a normal form: showing them joined and reading
    them back yields the same rules. *)
Theorem parse_rules_normal_form (text : string) :
  Forall rule_ok (parse_rules text) ∧
  parse_rules (join_rules (parse_rules text)) = parse_rules text ∧
  payload_rules (Some (VStr text)) = Some (parse_rules text) ∧
  payload_rules None = Some [].
Proof.
  pose proof (parse_rules_ok text) as Hok.
  split; [done|]. split; [|split; reflexivity].
  unfold parse_rules at 1.
  destruct (parse_rules text) as [|r rest] eqn:Hp; [done|].
  rewrite split_join.
  2:{ eapply Forall_impl; [exact Hok|]. by intros x (_ & ? & _). }
  assert (Htrim : trim <$> (r :: (String " "%char <$> rest)) = r :: rest).
  { rewrite fmap_cons. apply Forall_cons in Hok as [(_ & _ & Hr) Hrest]. rewrite Hr.
    f_equal. rewrite <- list_fmap_compose.
    clear -Hrest. induction Hrest as [|x l (_ & _ & Hx) _ IH]; [done|].
    rewrite fmap_cons. simpl. rewrite trim_space_cons, Hx. by rewrite IH. }
  rewrite Htrim. apply filter_all.
  eapply Forall_impl; [exact Hok|]. by intros x (? & _).
Qed.

(** The typed text [" a , ,b,, c d "] is sent as three rules. *)
Example parse_rules_sample : parse_rules " a , ,b,, c d " = ["a"; "b"; "c d"].
Proof. vm_compute. reflexivity. Qed.

(** ** The save guard *)

Lemma some_blank_false rows :
  some_blank rows = Some false ↔ Forall (λ r, name_blank r = Some false) rows.
Proof.
  induction rows as [|r rows IH]; simpl; [split; [by constructor|done]|].
  destruct (name_blank r) as [[|]|] eqn:Hr.
  - split; [done|]. intros [H _]%Forall_cons. congruence.
  - rewrite IH. split; [by constructor|]. by intros [_ ?]%Forall_cons.
  - split; [done|]. intros [H _]%Forall_cons. congruence.
Qed.

Lemma some_blank_snoc rows r :
  Forall (λ x, is_Some (name_blank x)) rows →
  name_blank r = Some true →
  some_blank (rows ++ [r]) = Some true.
Proof.
  intros Hall Hr. induction Hall as [|x rows [b Hx] _ IH]; simpl; [by rewrite Hr|].
  rewrite Hx. by destruct b.
Qed.

Lemma some_blank_total rows :
  Forall (λ x, is_Some (name_blank x)) rows → is_Some (some_blank rows).
Proof.
  induction 1 as [|x rows [b Hx] _ IH]; simpl; [eauto|].
  rewrite Hx. destruct b; eauto.
Qed.

(** X18. [handleSave] of the configuration sends something exactly
    when the document name is not blank and every section and page has
    a name that is not blank; a blank document name is reported first.
    In particular a row just added (its name is empty) blocks saving
    until it is named, whatever the other rows are, as long as their
    names are texts. *)
Theorem validate_spec (documentName : string) (pages sections : list Row) :
  (validate documentName pages sections = Passed ↔
   trim_is_empty documentName = false ∧
   Forall (λ r, name_blank r = Some false) sections ∧
   Forall (λ r, name_blank r = Some false) pages) ∧
  (trim_is_empty documentName = true →
   validate documentName pages sections = Blocked "Document name is required") ∧
  (trim_is_empty documentName = false →
   Forall (λ x, is_Some (name_blank x)) pages →
   Forall (λ x, is_Some (name_blank x)) sections →
   ∀ newId,
     validate documentName (addPage newId pages) sections
       = Blocked "Each page and section needs a name" ∧
     validate documentName pages (addSection newId sections)
       = Blocked "Each page and section needs a name").
Proof.
  unfold validate. split; [|split].
  - destruct (trim_is_empty documentName); [split; [done|by intros [? _]]|].
    rewrite <- !some_blank_false.
    destruct (some_blank sections) as [[|]|]; try (split; [done|by intros (_ & ? & _)]).
    destruct (some_blank pages) as [[|]|]; try (split; [done|by intros (_ & _ & ?)]).
  - by intros ->.
  - intros -> Hp Hs newId. split.
    + unfold addPage. rewrite (some_blank_snoc pages) by done.
      destruct (some_blank_total sections Hs) as [b ->]. by destruct b.
    + unfold addSection. by rewrite (some_blank_snoc sections) by done.
Qed.

(** * UploadPage *)

Lemma act_keeps_synced (f : UploadForm.Form) (a : UploadForm.Action) :
  draft_synced f → draft_synced (UploadForm.act f a).
Proof.
  unfold draft_synced. intros Hf.
  destruct a as [value| | |doc|has_file|res|res|anchor doc| |deleted docs| |res]; simpl.
  - intros _. by rewrite lookup_insert_eq.
  - intros _. by rewrite lookup_delete_eq.
  - intros _. by rewrite lookup_delete_eq.
  - intros _. by rewrite lookup_insert_eq.
  - destruct has_file; exact Hf.
  - destruct res as [raw ext docs|detail]; simpl; [|exact Hf].
    intros _. destruct docs as [docs|]; simpl; by rewrite lookup_insert_eq.
  - destruct res; exact Hf.
  - exact Hf.
  - exact Hf.
  - unfold UploadForm.handleDeleteDoc. destruct (UploadForm.selectedDoc f); [|exact Hf].
    destruct deleted; [|exact Hf]. destruct docs; exact Hf.
  - unfold UploadForm.handleGenerate_guard.
    destruct (trim_is_empty (UploadForm.rawText f)); exact Hf.
  - destruct res as [id document_id|detail]; simpl; [|exact Hf].
    destruct (truthy (if truthy id then id else document_id)); [done|exact Hf].
Qed.

Lemma run_keeps_synced actions : ∀ f,
  draft_synced f → draft_synced (UploadForm.run f actions).
Proof.
  unfold UploadForm.run.
  induction actions as [|a actions IH]; intros f Hf; simpl; [done|].
  by apply IH, act_keeps_synced.
Qed.

(** X19. On the upload page the draft in [localStorage] always mirrors
    the text on screen: after any sequence of typing, clearing, loading
    a listed document, uploads (completed or failed), list refreshes,
    menu actions, deletions and generation attempts that did not
    navigate away, mounting the page again from the storage restores
    exactly the text that was shown. *)
Theorem reload_restores_text (storage : UploadForm.Storage)
    (actions : list UploadForm.Action) :
  UploadForm.navigated (UploadForm.run (UploadForm.mount storage) actions) = None →
  UploadForm.rawText
    (UploadForm.mount
       (UploadForm.localStorage (UploadForm.run (UploadForm.mount storage) actions)))
    = UploadForm.rawText (UploadForm.run (UploadForm.mount storage) actions).
Proof.
  intros Hnav.
  assert (Hs : draft_synced (UploadForm.run (UploadForm.mount storage) actions)).
  { apply run_keeps_synced. by intros _. }
  by rewrite (Hs Hnav).
Qed.

Lemma reload_restores_text_witness :
  UploadForm.rawText
    (UploadForm.mount
       (UploadForm.localStorage
          (UploadForm.run (UploadForm.mount ∅)
             [UploadForm.Paste "minutes of the meeting";
              UploadForm.GenerateClicked;
              UploadForm.GenerateSettled (UploadForm.GenerateRejected JUndefined)])))
    = UploadForm.rawText
        (UploadForm.run (UploadForm.mount ∅)
           [UploadForm.Paste "minutes of the meeting";
            UploadForm.GenerateClicked;
            UploadForm.GenerateSettled (UploadForm.GenerateRejected JUndefined)]).
Proof.
  apply (reload_restores_text ∅
           [UploadForm.Paste "minutes of the meeting";
            UploadForm.GenerateClicked;
            UploadForm.GenerateSettled (UploadForm.GenerateRejected JUndefined)]).
  vm_compute. reflexivity.
Defined.

(** X20. [handleGenerate] sends a request exactly when the Generate
    button is rendered ([hasContent]): text that is empty or white space
    only is refused with a notice and nothing else changes.  When the
    request settles, the draft is removed and the page navigates to the
    viewer only if the response carries an id ([id], else
    [document.id]); a rejection, or a response without an id, keeps
    text and draft, reports an error and navigates nowhere.  The
    indicator is off afterwards in every case, and the text sent is the
    text on screen, untrimmed. *)
Theorem generate_outcomes (f : UploadForm.Form) :
  (UploadForm.handleGenerate_guard f).2 = UploadForm.hasContent f ∧
  (UploadForm.hasContent f = false →
   UploadForm.rawText (UploadForm.handleGenerate_guard f).1 = UploadForm.rawText f ∧
   UploadForm.localStorage (UploadForm.handleGenerate_guard f).1
     = UploadForm.localStorage f ∧
   UploadForm.loading (UploadForm.handleGenerate_guard f).1 = UploadForm.loading f ∧
   UploadForm.navigated (UploadForm.handleGenerate_guard f).1 = UploadForm.navigated f ∧
   UploadForm.snack (UploadForm.handleGenerate_guard f).1
     = mkSnack true "Please upload or paste text first" SevError) ∧
  (∀ config,
     UploadForm.payload_raw_text
       (UploadForm.generate_payload config (UploadForm.handleGenerate_guard f).1)
     = UploadForm.rawText f) ∧
  (∀ res, UploadForm.loading (UploadForm.handleGenerate_settle res f) = false ∧
          UploadForm.rawText (UploadForm.handleGenerate_settle res f)
            = UploadForm.rawText f) ∧
  (∀ id document_id,
     truthy id = true ∨ truthy document_id = true →
     UploadForm.navigated
       (UploadForm.handleGenerate_settle (UploadForm.Generated id document_id) f)
       = Some ("/viewer/" +:+ template (if truthy id then id else document_id)) ∧
     UploadForm.localStorage
       (UploadForm.handleGenerate_settle (UploadForm.Generated id document_id) f)
       !! UploadForm.draft_key = None) ∧
  (∀ res,
     (∀ id document_id, res = UploadForm.Generated id document_id →
                        truthy id = false ∧ truthy document_id = false) →
     UploadForm.navigated (UploadForm.handleGenerate_settle res f)
       = UploadForm.navigated f ∧
     UploadForm.localStorage (UploadForm.handleGenerate_settle res f)
       = UploadForm.localStorage f ∧
     severity (UploadForm.snack (UploadForm.handleGenerate_settle res f)) = SevError).
Proof.
  unfold UploadForm.handleGenerate_guard, UploadForm.hasContent.
  split. { by destruct (trim_is_empty (UploadForm.rawText f)). }
  split. { intros Hb%negb_false_iff. by rewrite Hb. }
  split. { intros config. by destruct (trim_is_empty (UploadForm.rawText f)). }
  split.
  { intros [id document_id|detail]; simpl; [|done].
    by destruct (truthy (if truthy id then id else document_id)). }
  split.
  { intros id document_id Hor. simpl.
    assert (truthy (if truthy id then id else document_id) = true) as ->.
    { destruct (truthy id) eqn:Hid; [done|]. by destruct Hor. }
    simpl. split; [done|]. by rewrite lookup_delete_eq. }
  intros [id document_id|detail] Hno; simpl; [|done].
  destruct (Hno id document_id eq_refl) as [-> ->]. done.
Qed.

(** * Failure messages, routes *)

Lemma truthy_template v : truthy v = true → template v ≠ "".
Proof. by destruct v as [| |[|c s]]. Qed.

(** X21. The message attached to a failed request is never empty: it
    is the server's [detail] if there is one, else the server's
    [message], else the transport's message, else "Network error".  The
    login and signup pages show exactly this message for every failed
    request; their own fallback texts ("Invalid credentials", "Signup
    failed") are never shown for one. *)
Theorem failure_message_shown (e : Api.ApiError) :
  Api.friendlyMessage e ≠ "" ∧
  Api.login_message (Api.intercept e) = Api.friendlyMessage e ∧
  Api.signup_message (Api.intercept e) = Api.friendlyMessage e ∧
  (truthy (Api.detail e) = true → Api.friendlyMessage e = template (Api.detail e)) ∧
  (truthy (Api.detail e) = false → truthy (Api.data_message e) = true →
   Api.friendlyMessage e = template (Api.data_message e)) ∧
  (truthy (Api.detail e) = false → truthy (Api.data_message e) = false →
   truthy (Api.error_message e) = true →
   Api.friendlyMessage e = template (Api.error_message e)) ∧
  (truthy (Api.detail e) = false → truthy (Api.data_message e) = false →
   truthy (Api.error_message e) = false →
   Api.friendlyMessage e = "Network error").
Proof.
  assert (Hne : Api.friendlyMessage e ≠ "").
  { unfold Api.friendlyMessage.
    destruct (truthy (Api.detail e)) eqn:H1; [by apply truthy_template|].
    destruct (truthy (Api.data_message e)) eqn:H2; [by apply truthy_template|].
    destruct (truthy (Api.error_message e)) eqn:H3; [by apply truthy_template|done]. }
  assert (Hpage : ∀ fallback, Api.page_message fallback (Api.intercept e)
                              = Api.friendlyMessage e).
  { intros fallback. unfold Api.page_message, Api.intercept. simpl.
    by destruct (Api.friendlyMessage e). }
  split; [done|]. split; [apply Hpage|]. split; [apply Hpage|].
  unfold Api.friendlyMessage.
  split; [by intros ->|]. split; [by intros -> ->|].
  split; [by intros -> -> ->|by intros -> -> ->].
Qed.

Lemma role_allowed_superadmin u :
  Routes.role_allowed ["superadmin"] u = bool_decide (Routes.role u = JStr "superadmin").
Proof.
  unfold Routes.role_allowed. destruct (Routes.role u) as [| |s]; try done.
  apply bool_decide_ext. rewrite list_elem_of_singleton. split; [by intros ->|by intros [=]].
Qed.

(** X22. Every navigation ends on a page after at most two redirects;
    a page other than login and signup is shown only when a user and a
    non-empty token are stored, and the admin page only when that
    user's role is "superadmin".  With a session, every route but the
    admin route shows its own page. *)
Theorem navigation_is_guarded (user : option Routes.User) (token : option string)
    (path : Routes.Path) :
  ∃ page,
    Routes.resolve 2 user token path = Some page ∧
    (Routes.needs_session page = true → Routes.has_session user token) ∧
    (page = Routes.AdminPage →
     ∃ u, user = Some u ∧ Routes.role u = JStr "superadmin") ∧
    (Routes.has_session user token → path ≠ Routes.PAdmin → path ≠ Routes.PRoot →
     Routes.route user token path = Routes.Shows page).
Proof.
  assert (Hsess : ∀ u c t, Routes.has_session (Some u) (Some (String c t)))
    by (intros; split; eauto).
  destruct user as [u|], token as [[|c t]|], path; simpl;
    rewrite ?role_allowed_superadmin;
    try (destruct (bool_decide (Routes.role u = JStr "superadmin")) eqn:Hr;
         [apply bool_decide_eq_true in Hr|]);
    simpl; eexists; (split; [reflexivity|]);
    repeat split; try done; eauto;
    try (by intros [[? [=]] _]); try (by intros [_ (? & ? & [=])]).
Qed.

(** X23. With a session, the Admin Panel button of the navigation bar
    is shown exactly to the users the admin route admits, and the page
    [handleLogin] navigates to after a successful login is shown to
    that user without a redirect. *)
Theorem admin_entry_consistent (u : Routes.User) (token : option string) :
  Routes.has_session (Some u) token →
  (Routes.shows_admin_button (Some u) = true ↔
   Routes.route (Some u) token Routes.PAdmin = Routes.Shows Routes.AdminPage) ∧
  (Routes.shows_admin_button (Some u) = false ↔
   Routes.route (Some u) token Routes.PAdmin = Routes.Redirects Routes.PUpload) ∧
  ∃ page, Routes.route (Some u) token (Routes.login_target u) = Routes.Shows page.
Proof.
  intros [_ (c & t & ->)]. simpl. rewrite role_allowed_superadmin.
  unfold Routes.login_target.
  destruct (bool_decide (Routes.role u = JStr "superadmin")) eqn:Hr; simpl.
  - rewrite role_allowed_superadmin, Hr. repeat split; try done. eauto.
  - repeat split; try done. eauto.
Qed.

Lemma admin_entry_consistent_witness :
  (Routes.shows_admin_button (Some (Routes.mkUser (JStr "superadmin"))) = true ↔
   Routes.route (Some (Routes.mkUser (JStr "superadmin"))) (Some "abc") Routes.PAdmin
     = Routes.Shows Routes.AdminPage) ∧
  (Routes.shows_admin_button (Some (Routes.mkUser (JStr "superadmin"))) = false ↔
   Routes.route (Some (Routes.mkUser (JStr "superadmin"))) (Some "abc") Routes.PAdmin
     = Routes.Redirects Routes.PUpload) ∧
  ∃ page, Routes.route (Some (Routes.mkUser (JStr "superadmin"))) (Some "abc")
            (Routes.login_target (Routes.mkUser (JStr "superadmin")))
          = Routes.Shows page.
Proof.
  apply (admin_entry_consistent (Routes.mkUser (JStr "superadmin")) (Some "abc")).
  split; [eauto|]. by exists "a"%char, "bc".
Defined.
